(** * Mock-interview front end: Session Shell, Interview Flow, Answer Capture

    A shallow embedding of the three React components of the repository
    ([App.js], [Interview.js], [AudioRecorder.js]) and the properties of
    their event handlers.

    Conventions of the embedding
    - JavaScript values that come from the network (parsed JSON) are the
      inductive [Value]; truthiness, string conversion and property access
      follow ECMAScript.  A number is an integer [Z], which stands for the
      JavaScript number of that value only while it is a safe integer
      (below 2^53 in absolute value, [safe_integer]): there addition is
      exact and the number prints in decimal.  Statements about the
      printed form of a number or about a counter carry that bound.
    - Strings are [string]; a character is a code unit below 256.
    - Interview Flow, the start form and the report view are modelled while
      they are mounted.  Answer Capture is modelled past its unmounting,
      since the recorder, the stream and the interval it creates on the
      host outlive it.
    - A handler is a computation in the monad [Act S]: it threads the
      component state [S] and a log of the effects it performs on the host
      ([alert], [fetch], [setTimeout], calls of props), and it either
      returns or throws.  React state setters become record updates; no
      handler reads a state variable after having set it, so the stale
      closure and the updated record never disagree.
    - What the host answers (the outcome of [fetch], of [response.json()],
      of [getUserMedia], ...) is an argument of the handler. *)

From Stdlib Require Import ZArith String Ascii List Bool Lia DecimalString.
From stdpp Require Import base list option strings.
Import ListNotations.
Set Warnings "-register-all".
Local Open Scope Z_scope.

(** ** JavaScript values *)

Module JS.

Inductive Value : Type :=
| VUndefined
| VNull
| VBool (b : bool)
| VNum (n : Z)
| VStr (s : string)
| VArr (items : list Value)
| VObj (fields : list (string * Value)).

(** The value a [throw] carries.  Every throw site of the three files
    throws an [Error] object (or the host does); only [name] and [message]
    are ever read. *)
Record Exn : Type := mkExn { name : string; message : string }.

Inductive Result (A : Type) : Type :=
| Ok (a : A)
| Throw (e : Exn).
Arguments Ok {A} a.
Arguments Throw {A} e.

Definition is_empty (s : string) : bool :=
  match s with EmptyString => true | String _ _ => false end.

(** ToBoolean. *)
Definition truthy (v : Value) : bool :=
  match v with
  | VUndefined | VNull => false
  | VBool b => b
  | VNum n => negb (n =? 0)
  | VStr s => negb (is_empty s)
  | VArr _ | VObj _ => true
  end.

(** [Number.MAX_SAFE_INTEGER], [Number.isSafeInteger]: the integers that a
    JavaScript number holds exactly, and between which [+ 1] is exact. *)
Definition MAX_SAFE_INTEGER : Z := 2 ^ 53 - 1.

Definition safe_integer (n : Z) : bool :=
  (- MAX_SAFE_INTEGER <=? n) && (n <=? MAX_SAFE_INTEGER).

(** Number::toString of an integer, in decimal: what ECMAScript prints
    below 10^21, hence for every safe integer (from 10^21 on it prints an
    exponent, which this function does not). *)
Definition string_of_Z (n : Z) : string := NilZero.string_of_int (Z.to_int n).

Fixpoint join (sep : string) (l : list string) : string :=
  match l with
  | [] => ""
  | [s] => s
  | s :: rest => s +:+ sep +:+ join sep rest
  end.

(** ToString, as applied by template literals, [new Error(v)] and
    [FormData.append]. *)
Fixpoint to_string (v : Value) : string :=
  match v with
  | VUndefined => "undefined"
  | VNull => "null"
  | VBool true => "true"
  | VBool false => "false"
  | VNum n => string_of_Z n
  | VStr s => s
  | VArr items =>
      join "," (List.map (fun x => match x with
                                   | VUndefined | VNull => ""
                                   | _ => to_string x
                                   end) items)
  | VObj _ => "[object Object]"
  end.


Fixpoint lookup_field (k : string) (fields : list (string * Value)) : Value :=
  match fields with
  | [] => VUndefined
  | (k', v) :: rest => if String.eqb k k' then v else lookup_field k rest
  end.

(** [v.k] for the property names the components read ([detail], [error],
    [evaluation], [interview_complete], [next_question], [id],
    [session_id], and the fields of a report and of its questions): a
    [TypeError] on [null] and [undefined], the own property of an object,
    [undefined] on every other value. *)
Definition get_prop (v : Value) (k : string) : Result Value :=
  match v with
  | VUndefined =>
      Throw (mkExn "TypeError"
               ("Cannot read properties of undefined (reading '" +:+ k +:+ "')"))
  | VNull =>
      Throw (mkExn "TypeError"
               ("Cannot read properties of null (reading '" +:+ k +:+ "')"))
  | VObj fields => Ok (lookup_field k fields)
  | _ => Ok VUndefined
  end.

(** [a || b] on strings. *)
Definition str_or (a b : string) : string := if is_empty a then b else a.

(** [new Error(v)]. *)
Definition new_Error (v : Value) : Exn :=
  mkExn "Error" (match v with VUndefined => "" | _ => to_string v end).

(** [s.includes(sub)]. *)
Fixpoint includes (s sub : string) : bool :=
  String.prefix sub s ||
  match s with
  | EmptyString => false
  | String _ s' => includes s' sub
  end.

(** White space of [String.prototype.trim] among the code units below 256:
    TAB, LF, VT, FF, CR, SP and NBSP. *)
Definition is_ws (a : ascii) : bool :=
  let c := nat_of_ascii a in
  ((9 <=? c)%nat && (c <=? 13)%nat) || (c =? 32)%nat || (c =? 160)%nat.

Fixpoint trimStart (s : string) : string :=
  match s with
  | EmptyString => EmptyString
  | String a s' => if is_ws a then trimStart s' else s
  end.

Fixpoint trimEnd (s : string) : string :=
  match s with
  | EmptyString => EmptyString
  | String a s' =>
      let t := trimEnd s' in
      if is_ws a && is_empty t then EmptyString else String a t
  end.

Definition trim (s : string) : string := trimEnd (trimStart s).

End JS.
Import JS.

(** ** Host effects *)

Record Blob : Type := mkBlob { blob_size : Z; blob_type : string }.

Record File : Type := mkFile { file_name : string; file_size : Z; file_type : string }.

Inductive FormValue : Type :=
| FText (s : string)
| FFile (f : File).

(** A [FormData]: the appended entries, in order. *)
Definition FormData : Type := list (string * FormValue).

Inductive Body : Type :=
| BForm (fd : FormData)
| BJson (v : Value).

Inductive Effect : Type :=
| Alert (msg : string)
| Fetch (url : string) (method : string) (body : Body)
| SetTimeout (ms : Z) (closure : Value)
| CallOnComplete
| CallOnStart (data : Value)
| CallOnSubmit (text : string) (audio : option File).

(** ** Handlers as computations *)

Definition Act (S A : Type) : Type := S -> list Effect -> Result A * S * list Effect.

Definition ret {S A} (a : A) : Act S A := fun s l => (Ok a, s, l).

Definition bind {S A B} (c : Act S A) (k : A -> Act S B) : Act S B :=
  fun s l =>
    match c s l with
    | (Ok a, s', l') => k a s' l'
    | (Throw e, s', l') => (Throw e, s', l')
    end.

Declare Scope act_scope.
Delimit Scope act_scope with act.
Notation "'let!' x ':=' c 'in' k" := (bind c (fun x => k))
  (at level 10, x name, c at level 100, k at level 200) : act_scope.
Notation "c >> k" := (bind c (fun _ => k))
  (at level 100, k at level 200, right associativity) : act_scope.
Local Open Scope act_scope.

Definition throw {S A} (e : Exn) : Act S A := fun s l => (Throw e, s, l).

Definition lift {S A} (r : Result A) : Act S A := fun s l => (r, s, l).

Definition gets {S A} (f : S -> A) : Act S A := fun s l => (Ok (f s), s, l).

Definition modify {S} (f : S -> S) : Act S unit := fun s l => (Ok tt, f s, l).

Definition perform {S} (e : Effect) : Act S unit := fun s l => (Ok tt, s, l ++ [e]).

Definition alert {S} (msg : string) : Act S unit := perform (Alert msg).

(** [try { body } catch (e) { handler e }] *)
Definition try_catch {S A} (body : Act S A) (handler : Exn -> Act S A) : Act S A :=
  fun s l =>
    match body s l with
    | (Throw e, s', l') => handler e s' l'
    | r => r
    end.

(** [try { body } finally { fin }] *)
Definition try_finally {S A} (body : Act S A) (fin : Act S unit) : Act S A :=
  fun s l =>
    match body s l with
    | (r, s', l') =>
        match fin s' l' with
        | (Ok _, s'', l'') => (r, s'', l'')
        | (Throw e, s'', l'') => (Throw e, s'', l'')
        end
    end.

(** A handler of a child component running a prop of its parent: the
    state is the pair (child, parent). *)
Definition in_parent {C P A} (c : Act P A) : Act (C * P) A :=
  fun s l =>
    match c (snd s) l with
    | (r, p', l') => (r, (fst s, p'), l')
    end.

Definition in_child {C P A} (c : Act C A) : Act (C * P) A :=
  fun s l =>
    match c (fst s) l with
    | (r, c', l') => (r, (c', snd s), l')
    end.

(** ** The [fetch] responses *)

(** A response as the handlers observe it.  Its body can be read once
    (Fetch: a second read rejects with a [TypeError], the body being
    already used).  In the three files [response.json()] is always the
    first read: [json] is what it settles to, the parsed body or the
    parser's error; [body_used] is the [TypeError] of a later read. *)
Record Response : Type := mkResponse {
  status : Z;
  json : Result Value;
  body_used : Exn
}.

(** [response.text()] where [submitAnswer] calls it: in the [catch] of
    a [try] that has already awaited [response.json()]. *)
Definition text (r : Response) : Result string := Throw (body_used r).

(** [response.ok] *)
Definition ok (r : Response) : bool := (200 <=? status r) && (status r <=? 299).

(** What [await fetch(...)] settles to. *)
Definition FetchOutcome : Type := Result Response.

(** ** Interview Flow ([Interview.js]) *)

Module Interview.

(** The component's [useState] variables. *)
Record State : Type := mkState {
  currentQuestion : Value;
  questionNumber : Z;
  loading : bool;
  feedback : Value;
  showFeedback : bool;
  error : Value
}.

Definition setCurrentQuestion (v : Value) : Act State unit :=
  modify (fun s => mkState v (questionNumber s) (loading s) (feedback s) (showFeedback s) (error s)).
(** The counter is a JavaScript number: [prev + 1] is the integer
    successor as long as the result is a safe integer (at 2^53 the sum
    rounds back to 2^53). *)
Definition setQuestionNumber (f : Z -> Z) : Act State unit :=
  modify (fun s => mkState (currentQuestion s) (f (questionNumber s)) (loading s) (feedback s) (showFeedback s) (error s)).
Definition setLoading (b : bool) : Act State unit :=
  modify (fun s => mkState (currentQuestion s) (questionNumber s) b (feedback s) (showFeedback s) (error s)).
Definition setFeedback (v : Value) : Act State unit :=
  modify (fun s => mkState (currentQuestion s) (questionNumber s) (loading s) v (showFeedback s) (error s)).
Definition setShowFeedback (b : bool) : Act State unit :=
  modify (fun s => mkState (currentQuestion s) (questionNumber s) (loading s) (feedback s) b (error s)).
Definition setError (v : Value) : Act State unit :=
  modify (fun s => mkState (currentQuestion s) (questionNumber s) (loading s) (feedback s) (showFeedback s) v).

(** The state of a freshly mounted component, after the effect that
    copies [sessionData.question] has run. *)
Definition mount (sessionData : Value) : State :=
  let q := match sessionData with
           | VObj fields => lookup_field "question" fields
           | _ => VUndefined
           end in
  mkState (if truthy sessionData && truthy q then q else VNull) 1 false VNull false VNull.

(** Which of the four returns of the render function is taken. *)
Inductive View : Type :=
| Submitting
| Errored (msg : Value)
| FeedbackShown (evaluation : Value)
| Active.

Definition render (s : State) : View :=
  if loading s then Submitting
  else if truthy (error s) then Errored (error s)
  else if showFeedback s && truthy (feedback s) then FeedbackShown (feedback s)
  else Active.

(** [<AudioRecorder onSubmit={submitAnswer} disabled={loading} />] is part
    of the last return only: in the three other views the recorder is not
    rendered, hence unmounted. *)
Definition renders_recorder (v : View) : bool :=
  match v with
  | Active => true
  | Submitting | Errored _ | FeedbackShown _ => false
  end.

(** The multipart body built at the head of [submitAnswer]. *)
Definition formData (session_id question_id : Value) (answerText : string)
    (audioFile : option File) : FormData :=
  [("session_id", FText (to_string session_id));
   ("question_id", FText (to_string question_id));
   ("answer_text", FText (str_or answerText ""))]
  ++ match audioFile with
     | Some f => [("audio_file", FFile f)]
     | None => []
     end.

(** [errorData.detail || errorData.error || errorMessage] *)
Definition detail_or_error (errorData : Value) (errorMessage : Value) : Result Value :=
  match get_prop errorData "detail" with
  | Throw e => Throw e
  | Ok d =>
      if truthy d then Ok d
      else match get_prop errorData "error" with
           | Throw e => Throw e
           | Ok e => if truthy e then Ok e else Ok errorMessage
           end
  end.

(** The inner [try]/[catch] of the [if (!response.ok)] block: the value
    left in [errorMessage]. *)
Definition read_error_message (response : Response) : Act State Value :=
  let errorMessage := VStr "Failed to submit answer" in
  try_catch
    (let! errorData := lift (json response) in
     lift (detail_or_error errorData errorMessage))
    (fun parseError =>
       let! textError := lift (text response) in
       ret (VStr ("Server error (" +:+ string_of_Z (status response) +:+ "): " +:+ textError))).

(** The [if (!response.ok)] block: computes the message, sets the error,
    alerts and throws. *)
Definition fail_not_ok (response : Response) : Act State unit :=
  let! errorMessage := read_error_message response in
  setError errorMessage >>
  alert ("Error: " +:+ to_string errorMessage) >>
  throw (new_Error errorMessage).

(** The [catch (error)] block of [submitAnswer]. *)
Definition on_failure (error : Exn) : Act State unit :=
  setError (VStr (str_or (message error) "Network error occurred")) >>
  if negb (includes (message error) "Server error")
  then alert "Failed to submit answer. Please check your connection and try again."
  else ret tt.

(** [submitAnswer(answerText, audioFile)], rendered with props
    [sessionData]; [net] is what the [fetch] settles to. *)
Definition submitAnswer (sessionData : Value) (net : FetchOutcome)
    (answerText : string) (audioFile : option File) : Act State unit :=
  let! currentQuestion := gets currentQuestion in
  if negb (truthy currentQuestion) then
    alert "No question available to answer"
  else
    setLoading true >>
    setError VNull >>
    try_finally
      (try_catch
         (let! session_id := lift (get_prop sessionData "session_id") in
          let! question_id := lift (get_prop currentQuestion "id") in
          perform (Fetch "/api/interview/submit" "POST"
                     (BForm (formData session_id question_id answerText audioFile))) >>
          let! response := lift net in
          (if negb (ok response) then fail_not_ok response else ret tt) >>
          let! result := lift (json response) in
          let! evaluation := lift (get_prop result "evaluation") in
          if negb (truthy evaluation) then
            throw (new_Error (VStr "Invalid response format - missing evaluation"))
          else
            setFeedback evaluation >>
            setShowFeedback true >>
            perform (SetTimeout 3000 result))
         on_failure)
      (setLoading false).

(** The closure handed to [setTimeout]; [result] is the captured
    response body. *)
Definition after_dwell (result : Value) : Act State unit :=
  let! interview_complete := lift (get_prop result "interview_complete") in
  if truthy interview_complete then
    perform CallOnComplete
  else
    let! next_question := lift (get_prop result "next_question") in
    if truthy next_question then
      setCurrentQuestion next_question >>
      setQuestionNumber (fun prev => prev + 1) >>
      setFeedback VNull >>
      setShowFeedback false
    else
      setError (VStr "Unexpected response from server").

(** The "Try Again" button of the error view. *)
Definition retry : Act State unit := setError VNull.

(** *** Closed forms used in the statements below *)

(** [formData.getAll(key)] *)
Definition getAll (key : string) (fd : FormData) : list FormValue :=
  List.map snd (List.filter (fun entry => String.eqb (fst entry) key) fd).

(** The messages alerted, in order. *)
Definition alerts (l : list Effect) : list string :=
  omap (fun e => match e with Alert msg => Some msg | _ => None end) l.

(** Every request in the log is multipart and carries exactly one
    [answer_text], equal to [t]. *)
Definition sends_answer_text (t : string) (e : Effect) : Prop :=
  match e with
  | Fetch _ _ (BForm fd) => getAll "answer_text" fd = [FText t]
  | Fetch _ _ (BJson _) => False
  | _ => True
  end.

(** The request [submitAnswer] issues. *)
Definition submit_request (sid qid : Value) (text : string) (file : option File) : Effect :=
  Fetch "/api/interview/submit" "POST" (BForm (formData sid qid text file)).

Definition generic_alert : Effect :=
  Alert "Failed to submit answer. Please check your connection and try again.".

(** The state [submitAnswer] leaves when it succeeds. *)
Definition shown (s : State) (ev : Value) : State :=
  mkState (currentQuestion s) (questionNumber s) false ev true VNull.

(** A response body that moves on to a next question. *)
Definition advances (result : Value) : Prop :=
  exists fields,
    result = VObj fields
    /\ truthy (lookup_field "interview_complete" fields) = false
    /\ truthy (lookup_field "next_question" fields) = true.

(** [[...Array(10)].map((_, i) => i < questionNumber)]: which of the ten
    progress dots of the feedback view are "completed". *)
Definition progress_dots (questionNumber : Z) : list bool :=
  List.map (fun i => Z.of_nat i <? questionNumber) (seq 0 10).

(** The timer callbacks of a run of responses, fired one after the other. *)
Fixpoint after_dwells (results : list Value) : Act State unit :=
  match results with
  | [] => ret tt
  | result :: rest => after_dwell result >> after_dwells rest
  end.

(** The state [submitAnswer] leaves when it fails: only [loading] and
    [error] are written. *)
Definition failed (s : State) (msg : string) : State :=
  mkState (currentQuestion s) (questionNumber s) false (feedback s) (showFeedback s)
          (VStr (str_or msg "Network error occurred")).

(** What the inner [try]/[catch] of the non-2xx block leaves in
    [errorMessage], as a pure function of the response. *)
Definition error_message (resp : Response) : Result Value :=
  let fallback :=
    match text resp with
    | Ok body => Ok (VStr ("Server error (" +:+ string_of_Z (status resp) +:+ "): " +:+ body))
    | Throw e => Throw e
    end in
  match json resp with
  | Ok errorData =>
      match detail_or_error errorData (VStr "Failed to submit answer") with
      | Ok m => Ok m
      | Throw _ => fallback
      end
  | Throw _ => fallback
  end.

End Interview.

(** ** Answer Capture ([AudioRecorder.js]) *)

Module AudioRecorder.

(** The component's [useState] variables. *)
Record State : Type := mkState {
  isRecording : bool;
  audioBlob : option Blob;
  answerText : string;
  recordingTime : Z
}.

(** The component's [useRef] cells.  A recorder and a timer are named by
    their index in the host's tables. *)
Record Refs : Type := mkRefs {
  mediaRecorderRef : option nat;
  chunksRef : list Blob;
  timerRef : option nat
}.

(** The life of a host [MediaRecorder].  Its [state] attribute reads
    ["recording"] in phase [Recording] and ["inactive"] in the others. *)
Inductive Phase : Type :=
| Created      (* constructed, [start] not (successfully) called *)
| Recording
| StopQueued   (* inactivated by [stop()]; the task firing [dataavailable] and [stop] is queued *)
| Stopped.     (* the [stop] event has been dispatched *)

Record MediaRecorder : Type := mkRecorder {
  mr_stream : nat;
  mr_phase : Phase;
  mr_options_mimeType : string;
  mr_mimeType : string
}.

(** The host: the streams handed out by [getUserMedia] (per track, is it
    live), the recorders, the [getUserMedia] promises not yet settled and
    the intervals (is it still armed). *)
Record Host : Type := mkHost {
  streams : list (list bool);
  recorders : list MediaRecorder;
  pending_getUserMedia : nat;
  intervals : list bool
}.

(** One instance of the component, from its mount on, with the host
    objects it creates.  [mounted] turns false when the parent stops
    rendering the component; the component has no cleanup, so the host
    is left as it is, and the closures already handed to the host
    (recorder handlers, the interval, a pending [getUserMedia]) still run
    against the refs, while the state setters no longer do anything. *)
Record World : Type := mkWorld {
  disabled : bool;          (* the prop *)
  state : State;
  refs : Refs;
  host : Host;
  mounted : bool
}.

Definition init : World :=
  mkWorld false (mkState false None "" 0) (mkRefs None [] None) (mkHost [] [] 0 []) true.

(** *** State, ref and host updates *)

(** A state setter: without effect once the component is unmounted. *)
Definition with_state (f : State -> State) : Act World unit :=
  modify (fun w => mkWorld (disabled w) (if mounted w then f (state w) else state w)
                           (refs w) (host w) (mounted w)).
Definition with_refs (f : Refs -> Refs) : Act World unit :=
  modify (fun w => mkWorld (disabled w) (state w) (f (refs w)) (host w) (mounted w)).
Definition with_host (f : Host -> Host) : Act World unit :=
  modify (fun w => mkWorld (disabled w) (state w) (refs w) (f (host w)) (mounted w)).

Definition set_isRecording (b : bool) (s : State) : State :=
  mkState b (audioBlob s) (answerText s) (recordingTime s).
Definition set_audioBlob (b : option Blob) (s : State) : State :=
  mkState (isRecording s) b (answerText s) (recordingTime s).
Definition set_answerText (t : string) (s : State) : State :=
  mkState (isRecording s) (audioBlob s) t (recordingTime s).
Definition set_recordingTime (f : Z -> Z) (s : State) : State :=
  mkState (isRecording s) (audioBlob s) (answerText s) (f (recordingTime s)).

Definition set_phase (p : Phase) (r : MediaRecorder) : MediaRecorder :=
  mkRecorder (mr_stream r) p (mr_options_mimeType r) (mr_mimeType r).

Definition update_recorder (rid : nat) (f : MediaRecorder -> MediaRecorder) (h : Host) : Host :=
  mkHost (streams h) (alter f rid (recorders h)) (pending_getUserMedia h) (intervals h).

(** [stream.getTracks().forEach(track => track.stop())] *)
Definition stop_tracks (sid : nat) (h : Host) : Host :=
  mkHost (alter (List.map (fun _ => false)) sid (streams h)) (recorders h)
         (pending_getUserMedia h) (intervals h).

(** *** What the render function exposes *)

Definition has_blob (s : State) : bool :=
  match audioBlob s with Some _ => true | None => false end.

(** [{!isRecording && !audioBlob && (<button onClick={startRecording} ...>)}] *)
Definition start_button_rendered (s : State) : bool :=
  negb (isRecording s) && negb (has_blob s).

(** [{isRecording && (... <button onClick={stopRecording}> ...)}] *)
Definition stop_button_rendered (s : State) : bool := isRecording s.

(** [{audioBlob && (... <button onClick={clearRecording}> ...)}] *)
Definition clear_button_rendered (s : State) : bool := has_blob s.

(** [disabled={disabled || (!answerText.trim() && !audioBlob)}] *)
Definition submit_button_disabled (disabled : bool) (s : State) : bool :=
  disabled || (is_empty (trim (answerText s)) && negb (has_blob s)).

(** [{answerText.trim() && audioBlob && (<p className="submission-note">...)}] *)
Definition submission_note_rendered (s : State) : bool :=
  negb (is_empty (trim (answerText s))) && has_blob s.

(** *** startRecording *)

(** What the host answers during one run of [startRecording]. *)
Record StartOracle : Type := mkStartOracle {
  getUserMedia : Result nat;              (* resolves with a stream of that many tracks, or rejects *)
  isTypeSupported : string -> bool;
  constructor_throws : option Exn;        (* [new MediaRecorder(stream, options)] *)
  reported_mimeType : string;             (* the recorder's [mimeType] attribute *)
  start_throws : option Exn               (* [mediaRecorder.start(1000)] *)
}.

Definition options_mimeType (supported : string -> bool) : string :=
  if negb (supported "audio/webm;codecs=opus") then
    if negb (supported "audio/wav") then "" else "audio/wav"
  else "audio/webm;codecs=opus".

Definition or_throw {S} (e : option Exn) : Act S unit :=
  match e with Some e => throw e | None => ret tt end.

(** The [catch (error)] block of [startRecording]. *)
Definition start_failed (error : Exn) : Act World unit :=
  let errorMessage := "Failed to access microphone. " in
  let errorMessage :=
    if String.eqb (name error) "NotAllowedError" then
      errorMessage +:+ "Please allow microphone access and try again."
    else if String.eqb (name error) "NotFoundError" then
      errorMessage +:+ "No microphone found. Please check your device."
    else
      errorMessage +:+ "Please check permissions and try again." in
  alert errorMessage.

(** The synchronous head of [startRecording]: the call of [getUserMedia],
    up to the [await]. *)
Definition startRecording_call : Act World unit :=
  with_host (fun h => mkHost (streams h) (recorders h) (S (pending_getUserMedia h)) (intervals h)).

(** The rest of [startRecording], run when the promise settles. *)
Definition startRecording_resume (o : StartOracle) : Act World unit :=
  with_host (fun h => mkHost (streams h) (recorders h) (Nat.pred (pending_getUserMedia h)) (intervals h)) >>
  try_catch
    (let! n_tracks := lift (getUserMedia o) in
     let! stream := gets (fun w => length (streams (host w))) in
     with_host (fun h => mkHost (streams h ++ [repeat true n_tracks]) (recorders h)
                                (pending_getUserMedia h) (intervals h)) >>
     let mimeType := options_mimeType (isTypeSupported o) in
     or_throw (constructor_throws o) >>
     let! mediaRecorder := gets (fun w => length (recorders (host w))) in
     with_host (fun h => mkHost (streams h)
                                (recorders h ++ [mkRecorder stream Created mimeType (reported_mimeType o)])
                                (pending_getUserMedia h) (intervals h)) >>
     with_refs (fun r => mkRefs (Some mediaRecorder) [] (timerRef r)) >>
     or_throw (start_throws o) >>
     with_host (update_recorder mediaRecorder (set_phase Recording)) >>
     with_state (set_isRecording true) >>
     let! timer := gets (fun w => length (intervals (host w))) in
     with_host (fun h => mkHost (streams h) (recorders h) (pending_getUserMedia h)
                                (intervals h ++ [true])) >>
     with_refs (fun r => mkRefs (mediaRecorderRef r) (chunksRef r) (Some timer)))
    start_failed.

(** *** The recorder's event handlers (closures over [mediaRecorder] and [stream]) *)

(** [mediaRecorder.ondataavailable] *)
Definition ondataavailable (data : Blob) : Act World unit :=
  if 0 <? blob_size data then
    with_refs (fun r => mkRefs (mediaRecorderRef r) (chunksRef r ++ [data]) (timerRef r))
  else ret tt.

(** [new Blob(chunks, { type })] *)
Definition new_Blob (chunks : list Blob) (type : string) : Blob :=
  mkBlob (fold_right Z.add 0 (List.map blob_size chunks)) type.

(** [mediaRecorder.onstop] *)
Definition onstop (mediaRecorder : MediaRecorder) : Act World unit :=
  let! chunks := gets (fun w => chunksRef (refs w)) in
  (if (0 <? length chunks)%nat then
     let mimeType := str_or (mr_mimeType mediaRecorder) "audio/wav" in
     let audioBlob := new_Blob chunks mimeType in
     with_state (set_audioBlob (Some audioBlob))
   else
     alert "No audio data was recorded. Please try again.") >>
  with_host (stop_tracks (mr_stream mediaRecorder)).

(** [mediaRecorder.onerror] *)
Definition onerror : Act World unit :=
  alert "Recording error occurred. Please try again." >>
  with_state (set_isRecording false).

(** *** stopRecording, clearRecording *)

Definition recorder_is_inactive (h : Host) (rid : nat) : bool :=
  match recorders h !! rid with
  | Some r => match mr_phase r with Recording => false | _ => true end
  | None => true
  end.

Definition stopRecording : Act World unit :=
  let! w := gets (fun w => w) in
  match mediaRecorderRef (refs w) with
  | Some mediaRecorder =>
      if negb (recorder_is_inactive (host w) mediaRecorder) then
        (* mediaRecorderRef.current.stop() *)
        with_host (update_recorder mediaRecorder (set_phase StopQueued)) >>
        with_state (set_isRecording false) >>
        match timerRef (refs w) with
        | Some timer =>
            with_host (fun h => mkHost (streams h) (recorders h) (pending_getUserMedia h)
                                       (<[timer := false]> (intervals h))) >>
            with_state (set_recordingTime (fun _ => 0))
        | None => ret tt
        end
      else ret tt
  | None => ret tt
  end.

Definition clearRecording : Act World unit :=
  with_state (set_audioBlob None).

(** *** handleSubmit *)

(** [new File([audioBlob], name, { type, lastModified })]; [throws] is
    what the host's constructor does. *)
Definition new_File (throws : option Exn) (audioBlob : Blob) (fname type : string) : Result File :=
  match throws with
  | Some e => Throw e
  | None => Ok (mkFile fname (blob_size audioBlob) type)
  end.

(** The last [try]/[catch] of [handleSubmit]: awaits the prop, then clears
    the form; the call of the prop is logged as [CallOnSubmit] before the
    prop runs. *)
Definition hand_off {P} (onSubmit : string -> option File -> Act P unit)
    (text : string) (audioFile : option File) : Act (State * P) unit :=
  try_catch
    (perform (CallOnSubmit text audioFile) >>
     in_parent (onSubmit text audioFile) >>
     in_child (modify (set_answerText "")) >>
     in_child (modify (set_audioBlob None)))
    (fun error => ret tt).

(** [handleSubmit], rendered with prop [onSubmit]; the state is the pair
    of this component's state and its parent's.  The value computed
    before the hand-off is [None] where the source has returned. *)
Definition handleSubmit {P} (onSubmit : string -> option File -> Act P unit)
    (file_throws : option Exn) : Act (State * P) unit :=
  let! s := gets fst in
  let hasText := negb (is_empty (answerText s)) && (0 <? String.length (trim (answerText s)))%nat in
  let hasAudio := match audioBlob s with
                  | Some b => 0 <? blob_size b
                  | None => false
                  end in
  if negb hasText && negb hasAudio then
    alert "Please provide an answer by typing text or recording audio."
  else
    let! prepared :=
      match audioBlob s with
      | Some audioBlob =>
          if hasAudio then
            try_catch
              (let mimeType := str_or (blob_type audioBlob) "audio/wav" in
               let extension := if includes mimeType "webm" then "webm" else "wav" in
               let! audioFile := lift (new_File file_throws audioBlob ("answer." +:+ extension) mimeType) in
               ret (Some (Some audioFile)))
              (fun error =>
                 alert "Error processing audio. Please try recording again." >>
                 ret None)
          else ret (Some None)
      | None => ret (Some None)
      end in
    match prepared with
    | None => ret tt
    | Some audioFile => hand_off onSubmit (str_or (trim (answerText s)) "") audioFile
    end.

(** *** The component as a transition system *)

(** What can happen to the component: the user operates a control that
    is rendered and enabled, a promise settles, the host dispatches a
    recorder event, the parent re-renders it or stops rendering it
    ([Unmount]: Interview renders the recorder in its active view only,
    so it is unmounted when an answer is submitted and when the user goes
    home).  Following the MediaStream
    Recording specification, [stop()] inactivates the recorder and queues
    one task that fires [dataavailable] and then [stop]; a recorder error
    and the end of all tracks each run one task that inactivates the
    recorder and fires ([error],) [dataavailable] and [stop]. *)
Inductive Event : Type :=
| ClickStart
| GetUserMediaSettled (o : StartOracle)
| DataAvailable (rid : nat) (data : Blob)
| ClickStop
| StopTask (rid : nat) (data : Blob)
| RecorderError (rid : nat) (data : Blob)
| TracksEnded (rid : nat) (data : Blob)
| ClickClear
| TypeText (value : string)
| ClickSubmit (file_throws : option Exn) (onSubmit : string -> option File -> Act unit unit)
| Tick (timer : nat)
| SetDisabled (b : bool)
| Unmount.

Definition recorder_in (p : Phase) (h : Host) (rid : nat) : option MediaRecorder :=
  match recorders h !! rid with
  | Some r =>
      match mr_phase r, p with
      | Created, Created | Recording, Recording
      | StopQueued, StopQueued | Stopped, Stopped => Some r
      | _, _ => None
      end
  | None => None
  end.

(** The tail of every task that ends a recording. *)
Definition fire_dataavailable_and_stop (rid : nat) (r : MediaRecorder) (data : Blob) : Act World unit :=
  ondataavailable data >>
  onstop r >>
  with_host (update_recorder rid (set_phase Stopped)).

(** The handler an event runs, or [None] where the event cannot occur. *)
Definition dispatch (e : Event) (w : World) : option (Act World unit) :=
  match e with
  | ClickStart =>
      if mounted w && (start_button_rendered (state w) && negb (disabled w))
      then Some startRecording_call else None
  | GetUserMediaSettled o =>
      if (0 <? pending_getUserMedia (host w))%nat
      then Some (startRecording_resume o) else None
  | DataAvailable rid data =>
      match recorder_in Recording (host w) rid with
      | Some _ => Some (ondataavailable data)
      | None => None
      end
  | ClickStop =>
      if mounted w && stop_button_rendered (state w) then Some stopRecording else None
  | StopTask rid data =>
      match recorder_in StopQueued (host w) rid with
      | Some r => Some (fire_dataavailable_and_stop rid r data)
      | None => None
      end
  | RecorderError rid data =>
      match recorder_in Recording (host w) rid with
      | Some r =>
          Some (with_host (update_recorder rid (set_phase StopQueued)) >>
                onerror >>
                fire_dataavailable_and_stop rid r data)
      | None => None
      end
  | TracksEnded rid data =>
      match recorder_in Recording (host w) rid with
      | Some r =>
          Some (with_host (stop_tracks (mr_stream r)) >>
                with_host (update_recorder rid (set_phase StopQueued)) >>
                fire_dataavailable_and_stop rid r data)
      | None => None
      end
  | ClickClear =>
      if mounted w && clear_button_rendered (state w) then Some clearRecording else None
  | TypeText value =>
      if mounted w && negb (disabled w)
      then Some (with_state (set_answerText value)) else None
  | ClickSubmit file_throws onSubmit =>
      if mounted w && negb (submit_button_disabled (disabled w) (state w))
      then Some (fun w l =>
                   match handleSubmit onSubmit file_throws (state w, tt) l with
                   | (r, (s', _), l') =>
                       (r, mkWorld (disabled w) s' (refs w) (host w) (mounted w), l')
                   end)
      else None
  | Tick timer =>
      match intervals (host w) !! timer with
      | Some true => Some (with_state (set_recordingTime (fun prev => prev + 1)))
      | _ => None
      end
  | SetDisabled b =>
      if mounted w
      then Some (modify (fun w => mkWorld b (state w) (refs w) (host w) (mounted w)))
      else None
  | Unmount =>
      if mounted w
      then Some (modify (fun w => mkWorld (disabled w) (state w) (refs w) (host w) false))
      else None
  end.

Definition step (e : Event) (w : World) : option (World * list Effect) :=
  match dispatch e w with
  | Some handler => match handler w [] with (_, w', l) => Some (w', l) end
  | None => None
  end.

Fixpoint run (es : list Event) (w : World) : option World :=
  match es with
  | [] => Some w
  | e :: es' =>
      match step e w with
      | Some (w', _) => run es' w'
      | None => None
      end
  end.

Inductive reachable : World -> Prop :=
| reachable_init : reachable init
| reachable_step e w w' l : reachable w -> step e w = Some (w', l) -> reachable w'.

(** The recorders whose [state] is ["recording"]. *)
Definition active_recordings (w : World) : list MediaRecorder :=
  List.filter (fun r => match mr_phase r with Recording => true | _ => false end)
              (recorders (host w)).

(** None of the tracks is live. *)
Definition dead (tracks : list bool) : Prop := Forall (fun live => live = false) tracks.

(** Stream [sid] exists and none of its tracks is live. *)
Definition tracks_stopped (h : Host) (sid : nat) : Prop :=
  exists tracks, streams h !! sid = Some tracks /\ dead tracks.

(** Every recorder records a stream of the host, and the tracks of a
    recorder whose [stop] event has been dispatched are stopped. *)
Definition HInv (ss : list (list bool)) (rs : list MediaRecorder) : Prop :=
  forall rid r, rs !! rid = Some r ->
    (mr_stream r < length ss)%nat /\
    (mr_phase r = Stopped -> forall tracks, ss !! mr_stream r = Some tracks -> dead tracks).

(** The invariant of the transition system: the chunks collected and the
    blob held are not empty, and the host satisfies [HInv]. *)
Definition Inv (w : World) : Prop :=
  Forall (fun b => 0 < blob_size b) (chunksRef (refs w)) /\
  (forall b, audioBlob (state w) = Some b -> 0 < blob_size b) /\
  HInv (streams (host w)) (recorders (host w)).

(** Recorders stay where they are, keep their stream, and one that has
    been started is never again in phase [Created]. *)
Definition evolves (rs rs' : list MediaRecorder) : Prop :=
  forall rid r, rs !! rid = Some r ->
    exists r', rs' !! rid = Some r' /\ mr_stream r' = mr_stream r /\
               (mr_phase r <> Created -> mr_phase r' <> Created).

(** *** Closed forms used in the statements below *)

(** The [File] that [handleSubmit] builds from the recorded blob. *)
Definition audio_file (audioBlob : Blob) : File :=
  let mimeType := str_or (blob_type audioBlob) "audio/wav" in
  let extension := if includes mimeType "webm" then "webm" else "wav" in
  mkFile ("answer." +:+ extension) (blob_size audioBlob) mimeType.

(** The form after a hand-off that returned. *)
Definition cleared (s : State) : State := set_audioBlob None (set_answerText "" s).

Definition empty_answer_warning : Effect :=
  Alert "Please provide an answer by typing text or recording audio.".

(** *** formatTime *)

(** [s.padStart(targetLength, pad)] for a pad of one character. *)
Definition padStart (targetLength : nat) (pad : ascii) (s : string) : string :=
  string_of_list_ascii (repeat pad (targetLength - String.length s)) +:+ s.

(** [formatTime(seconds)], on integers: [Math.floor(seconds / 60)] is the
    floor quotient and [%] the remainder with the sign of the dividend. *)
Definition formatTime (seconds : Z) : string :=
  let mins := seconds / 60 in
  let secs := Z.rem seconds 60 in
  string_of_Z mins +:+ ":" +:+ padStart 2 "0" (string_of_Z secs).

(** The handler of one click on "Start Recording" whose promise settles
    before anything else happens. *)
Definition startRecording (o : StartOracle) : Act World unit :=
  startRecording_call >> startRecording_resume o.

(** The three messages of the [catch] block of [startRecording]. *)
Definition microphone_messages : list string :=
  ["Failed to access microphone. Please allow microphone access and try again.";
   "Failed to access microphone. No microphone found. Please check your device.";
   "Failed to access microphone. Please check permissions and try again."].

(** The chunks [ondataavailable] keeps. *)
Definition kept (datas : list Blob) : list Blob :=
  List.filter (fun data => 0 <? blob_size data) datas.

(** [w] with other chunks collected. *)
Definition with_chunks (w : World) (chunks : list Blob) : World :=
  mkWorld (disabled w) (state w)
          (mkRefs (mediaRecorderRef (refs w)) chunks (timerRef (refs w))) (host w) (mounted w).

(** Two decimal digits. *)
Definition two_digits (r : Z) : string :=
  String (ascii_of_nat (48 + Z.to_nat (r / 10)))
    (String (ascii_of_nat (48 + Z.to_nat (r mod 10))) "").

Definition no_audio_warning : Effect := Alert "No audio data was recorded. Please try again.".

(** The component right after a first, successful start on host [o]
    granting [n] tracks. *)
Definition started (o : StartOracle) (n : nat) : World :=
  mkWorld false (mkState true None "" 0) (mkRefs (Some 0%nat) [] (Some 0%nat))
    (mkHost [repeat true n]
       [mkRecorder 0 Recording (options_mimeType (isTypeSupported o)) (reported_mimeType o)]
       0 [true])
    true.

(** What the host delivers to a recording component between start and
    stop: a chunk of the recording, or one period of the timer. *)
Inductive Beat : Type :=
| Chunk (data : Blob)
| Second.

Definition beat_event (b : Beat) : Event :=
  match b with
  | Chunk data => DataAvailable 0 data
  | Second => Tick 0
  end.

Definition chunks_of (beats : list Beat) : list Blob :=
  flat_map (fun b => match b with Chunk data => [data] | Second => [] end) beats.

Definition seconds_of (beats : list Beat) : Z :=
  Z.of_nat (length (List.filter (fun b => match b with Second => true | Chunk _ => false end) beats)).

(** The component recording on host [o] with [n] tracks, after [t]
    periods of the timer and with [chunks] collected. *)
Definition recording_for (o : StartOracle) (n : nat) (t : Z) (chunks : list Blob) : World :=
  mkWorld false (mkState true None "" t) (mkRefs (Some 0%nat) chunks (Some 0%nat))
    (mkHost [repeat true n]
       [mkRecorder 0 Recording (options_mimeType (isTypeSupported o)) (reported_mimeType o)]
       0 [true])
    true.

(** What is left of a recording: the phase of the first recorder, the
    tracks of the first stream, whether the first interval is armed, and
    whether each of the stop and start controls can be operated. *)
Definition left_of_recording (w : World)
    : option Phase * option (list bool) * option bool * bool * bool :=
  (mr_phase <$> recorders (host w) !! 0%nat,
   streams (host w) !! 0%nat,
   intervals (host w) !! 0%nat,
   match dispatch ClickStop w with Some _ => true | None => false end,
   match dispatch ClickStart w with Some _ => true | None => false end).

(** The recording time is not negative and a held blob has a type. *)
Definition Inv_display (w : World) : Prop :=
  0 <= recordingTime (state w) /\
  (forall b, audioBlob (state w) = Some b -> is_empty (blob_type b) = false).

End AudioRecorder.

(** ** Session Shell ([App.js]) *)

Module App.

Inductive CurrentView : Type := home | interview | report.

(** [App]'s state. *)
Record State : Type := mkState {
  currentView : CurrentView;
  sessionData : Value
}.

Definition startInterview (data : Value) : Act State unit :=
  modify (fun _ => mkState interview data).

Definition showReport : Act State unit :=
  modify (fun s => mkState report (sessionData s)).

Definition goHome : Act State unit :=
  modify (fun _ => mkState home VNull).

(** [InterviewSetup]'s state; [experience] is the value of the select. *)
Record Setup : Type := mkSetup {
  name : string;
  experience : string;
  loading : bool
}.

Definition setLoading (b : bool) : Act Setup unit :=
  modify (fun s => mkSetup (name s) (experience s) b).

(** [disabled={loading || !name.trim()}] *)
Definition start_button_disabled (s : Setup) : bool :=
  loading s || is_empty (trim (name s)).

(** [handleStart], rendered with prop [onStart]; the state is the pair
    (InterviewSetup, App). *)
Definition handleStart (onStart : Value -> Act State unit) (net : FetchOutcome)
    : Act (Setup * State) unit :=
  let! s := gets fst in
  if is_empty (trim (name s)) then
    alert "Please enter your name"
  else
    in_child (setLoading true) >>
    try_finally
      (try_catch
         (perform (Fetch "/api/interview/start" "POST"
                     (BJson (VObj [("name", VStr (name s)); ("experience", VStr (experience s))]))) >>
          let! response := lift net in
          (if negb (ok response)
           then throw (new_Error (VStr "Failed to start interview"))
           else ret tt) >>
          let! data := lift (json response) in
          perform (CallOnStart data) >>
          in_parent (onStart data))
         (fun error =>
            alert "Failed to start interview. Please check if the backend is running."))
      (in_child (setLoading false)).

(** *** Closed forms used in the statements below *)

Definition start_request (s : Setup) : Effect :=
  Fetch "/api/interview/start" "POST"
    (BJson (VObj [("name", VStr (name s)); ("experience", VStr (experience s))])).

Definition start_failed_alert : Effect :=
  Alert "Failed to start interview. Please check if the backend is running.".

(** The body a request yields to a handler that wants a 2xx status and a
    parseable body, and treats everything else alike. *)
Definition payload (net : FetchOutcome) : option Value :=
  match net with
  | Ok response =>
      if ok response
      then match json response with Ok data => Some data | Throw _ => None end
      else None
  | Throw _ => None
  end.

End App.

(** ** The report view ([InterviewReport] in [App.js]) *)

Module InterviewReport.

Record State : Type := mkState {
  report : Value;
  loading : bool
}.

Definition mount : State := mkState VNull true.

Definition setLoading (b : bool) : Act State unit :=
  modify (fun s => mkState (report s) b).



(** A value as a React child ([{v}] in JSX): strings and numbers are
    text, booleans, [null] and [undefined] render nothing, an array
    renders its items, and a plain object is refused (React throws
    "Objects are not valid as a React child"). *)
Fixpoint valid_child (v : Value) : bool :=
  match v with
  | VObj _ => false
  | VArr items => forallb valid_child items
  | _ => true
  end.

(** [{v.k}]: the property is read and is a valid child. *)
Definition child (v : Value) (k : string) : bool :=
  match get_prop v k with
  | Ok x => valid_child x
  | Throw _ => false
  end.

(** [report.final_score?.toFixed(1) || 'N/A'] evaluates: the call is
    skipped for [null] and [undefined], numbers have [toFixed], and on
    every other JSON value the call is a [TypeError]. *)
Definition final_score_evaluates (report : Value) : bool :=
  match get_prop report "final_score" with
  | Ok (VUndefined | VNull | VNum _) => true
  | _ => false
  end.

(** The callback of [report.questions?.map]: the summary of one question
    evaluates and its children are valid. *)
Definition question_summary_evaluates (q : Value) : bool :=
  child q "category"
  && child q "text"
  && match get_prop q "user_answer" with
     | Ok answer => valid_child (if truthy answer then answer else VStr "No answer provided")
     | Throw _ => false
     end
  && child q "score"
  && child q "feedback".

(** [report.questions?.map(...)] evaluates: the call is skipped for
    [null] and [undefined], arrays have [map], and on every other JSON
    value the call is a [TypeError]. *)
Definition questions_evaluate (report : Value) : bool :=
  match get_prop report "questions" with
  | Ok (VUndefined | VNull) => true
  | Ok (VArr items) => forallb question_summary_evaluates items
  | _ => false
  end.

(** The third return evaluates, and React accepts what it returns. *)
Definition report_renders (report : Value) : bool :=
  child report "user_name"
  && final_score_evaluates report
  && child report "total_questions"
  && child report "report"
  && questions_evaluate report.

(** Which of the three returns of the render function is taken;
    [Crashed] when the third throws while it is evaluated or React
    refuses what it returns: there is no error boundary, so the page goes
    blank. *)
Inductive View : Type :=
| Generating
| LoadFailed
| Shown (report : Value)
| Crashed.

Definition render (s : State) : View :=
  if loading s then Generating
  else if negb (truthy (report s)) then LoadFailed
  else if report_renders (report s) then Shown (report s)
  else Crashed.


End InterviewReport.

(** ** Sample data

    A session, its first question and some responses of the backend, used
    to run the handlers on concrete inputs. *)

Module Sample.

Definition question1 : Value :=
  VObj [("id", VNum 7); ("text", VStr "What does VLOOKUP do?"); ("category", VStr "lookup")].

Definition question2 : Value :=
  VObj [("id", VNum 8); ("text", VStr "What is a pivot table?"); ("category", VStr "analysis")].

Definition sessionData : Value :=
  VObj [("session_id", VStr "s-1"); ("question", question1)].

Definition evaluation : Value :=
  VObj [("score", VNum 4); ("feedback", VStr "Good."); ("strengths", VArr []); ("improvements", VArr [])].

(** The platform's complaint when a body is read twice. *)
Definition body_used : Exn := mkExn "TypeError" "body stream already read".

Definition syntax_error : Exn := mkExn "SyntaxError" "Unexpected token < in JSON at position 0".

(** 200 with an evaluation and a next question. *)
Definition next : Response :=
  mkResponse 200 (Ok (VObj [("evaluation", evaluation); ("next_question", question2)])) body_used.

(** 200 with an evaluation, the interview being complete. *)
Definition complete : Response :=
  mkResponse 200 (Ok (VObj [("evaluation", evaluation); ("interview_complete", VBool true)])) body_used.

(** 200 with an evaluation and nothing else. *)
Definition bare : Response :=
  mkResponse 200 (Ok (VObj [("evaluation", evaluation)])) body_used.

(** 200 without an evaluation. *)
Definition no_evaluation : Response :=
  mkResponse 200 (Ok (VObj [("next_question", question2)])) body_used.

(** 400 with body [{"detail": "bad audio format"}]. *)
Definition bad_audio : Response :=
  mkResponse 400 (Ok (VObj [("detail", VStr "bad audio format")])) body_used.

(** 500 with body [{}]. *)
Definition empty_object : Response :=
  mkResponse 500 (Ok (VObj [])) body_used.

(** 502 with a body that is not JSON (an HTML page, say). *)
Definition bad_gateway : Response :=
  mkResponse 502 (Throw syntax_error) body_used.

Definition recording : Blob := mkBlob 2048 "audio/webm;codecs=opus".

Definition recording_file : File := mkFile "answer.webm" 2048 "audio/webm;codecs=opus".

(** A host that grants the microphone (one audio track) and records
    WebM/Opus. *)
Definition microphone : AudioRecorder.StartOracle :=
  AudioRecorder.mkStartOracle (Ok 1%nat) (fun type => String.eqb type "audio/webm;codecs=opus")
    None "audio/webm;codecs=opus" None.

(** A host on which the user refuses the microphone. *)
Definition refusing : AudioRecorder.StartOracle :=
  AudioRecorder.mkStartOracle (Throw (mkExn "NotAllowedError" "Permission denied"))
    (fun _ => false) None "" None.

(** A host that grants the microphone and then refuses to record:
    [mediaRecorder.start(1000)] throws. *)
Definition start_refused : AudioRecorder.StartOracle :=
  AudioRecorder.mkStartOracle (Ok 1%nat) (fun type => String.eqb type "audio/webm;codecs=opus")
    None "audio/webm;codecs=opus"
    (Some (mkExn "NotSupportedError" "The operation is not supported.")).

(** A host that grants the microphone and whose [MediaRecorder]
    constructor throws. *)
Definition constructor_refused : AudioRecorder.StartOracle :=
  AudioRecorder.mkStartOracle (Ok 1%nat) (fun type => String.eqb type "audio/webm;codecs=opus")
    (Some (mkExn "NotSupportedError" "The operation is not supported."))
    "audio/webm;codecs=opus" None.

(** A host that records WAV only. *)
Definition wav_only (type : string) : bool := String.eqb type "audio/wav".

(** The last, empty chunk a recorder delivers when nothing was captured. *)
Definition no_data : Blob := mkBlob 0 "audio/webm;codecs=opus".

Definition one_second : Blob := mkBlob 16000 "audio/webm;codecs=opus".

(** Answer Capture after "Start Recording" was clicked once and the
    microphone granted. *)
Definition recording_world : AudioRecorder.World :=
  AudioRecorder.mkWorld false
    (AudioRecorder.mkState true None "" 0)
    (AudioRecorder.mkRefs (Some 0%nat) [] (Some 0%nat))
    (AudioRecorder.mkHost [[true]]
       [AudioRecorder.mkRecorder 0 AudioRecorder.Recording
          "audio/webm;codecs=opus" "audio/webm;codecs=opus"]
       0 [true])
    true.

(** Answer Capture once "Stop Recording" was clicked in
    [recording_world]: the stop task is queued. *)
Definition stopping_world : AudioRecorder.World :=
  AudioRecorder.mkWorld false
    (AudioRecorder.mkState false None "" 0)
    (AudioRecorder.mkRefs (Some 0%nat) [] (Some 0%nat))
    (AudioRecorder.mkHost [[true]]
       [AudioRecorder.mkRecorder 0 AudioRecorder.StopQueued
          "audio/webm;codecs=opus" "audio/webm;codecs=opus"]
       0 [false])
    true.

(** Answer Capture holding a recording of one second. *)
Definition recorded_world : AudioRecorder.World :=
  AudioRecorder.mkWorld false
    (AudioRecorder.mkState false (Some one_second) "" 0)
    (AudioRecorder.mkRefs (Some 0%nat) [one_second] (Some 0%nat))
    (AudioRecorder.mkHost [[false]]
       [AudioRecorder.mkRecorder 0 AudioRecorder.Stopped
          "audio/webm;codecs=opus" "audio/webm;codecs=opus"]
       0 [false])
    true.

(** A session whose payload carries no question. *)
Definition sessionData_without_question : Value := VObj [("session_id", VStr "s-2")].

Definition failed_to_fetch : Exn := mkExn "TypeError" "Failed to fetch".

(** A report of the shape the view expects. *)
Definition report : Value :=
  VObj [("user_name", VStr "Ada"); ("final_score", VNum 4); ("total_questions", VNum 1);
        ("report", VStr "Solid basics.");
        ("questions", VArr [VObj [("category", VStr "lookup"); ("text", VStr "What does VLOOKUP do?");
                                  ("user_answer", VStr "It looks up a value."); ("score", VNum 4);
                                  ("feedback", VStr "Good.")]])].



(** A body that moves on to [question2]. *)
Definition next_body : Value :=
  VObj [("evaluation", evaluation); ("next_question", question2)].

End Sample.

(** * Properties *)

(** ** Interview Flow *)

Section InterviewFlow.
Import Interview.

Lemma truthy_get_prop v k : truthy v = true -> exists x, get_prop v k = Ok x.
Proof. destruct v; simpl; try discriminate; eauto. Qed.

Lemma str_or_nonempty a b : is_empty a = false -> str_or a b = a.
Proof. unfold str_or. now intros ->. Qed.

Lemma str_or_empty_r t : str_or t "" = t.
Proof. now destruct t. Qed.

Ltac act_unfold :=
  unfold submitAnswer, fail_not_ok, read_error_message, on_failure, after_dwell, retry,
    setCurrentQuestion, setQuestionNumber, setLoading, setFeedback, setShowFeedback, setError,
    try_finally, try_catch, bind, ret, throw, lift, gets, modify, alert, perform in *.

(** Without a current question nothing is sent. *)
Lemma submitAnswer_no_question sd net text file s l :
  truthy (currentQuestion s) = false ->
  submitAnswer sd net text file s l = (Ok tt, s, l ++ [Alert "No question available to answer"]).
Proof. intros H. act_unfold. simpl. now rewrite H. Qed.

(** A 2xx response with a parseable body. *)
Lemma submitAnswer_2xx sd resp result text file s l sid :
  truthy (currentQuestion s) = true ->
  get_prop sd "session_id" = Ok sid ->
  ok resp = true ->
  json resp = Ok result ->
  exists qid, get_prop (currentQuestion s) "id" = Ok qid /\
  let l1 := l ++ [submit_request sid qid text file] in
  submitAnswer sd (Ok resp) text file s l =
  match get_prop result "evaluation" with
  | Ok ev =>
      if truthy ev then
        (Ok tt, mkState (currentQuestion s) (questionNumber s) false ev true VNull,
         l1 ++ [SetTimeout 3000 result])
      else
        (Ok tt, failed s "Invalid response format - missing evaluation", l1 ++ [generic_alert])
  | Throw e =>
      (Ok tt, failed s (message e),
       if negb (includes (message e) "Server error") then l1 ++ [generic_alert] else l1)
  end.
Proof.
  intros Hq Hs Hok Hj.
  destruct (truthy_get_prop _ "id" Hq) as [qid Hqid]. exists qid. split; [exact Hqid|].
  act_unfold. simpl. rewrite Hq. simpl. rewrite Hs, Hqid. simpl. rewrite Hok. simpl. rewrite Hj.
  destruct (get_prop result "evaluation") as [ev|e]; simpl.
  - destruct (truthy ev); simpl; reflexivity.
  - destruct (includes (message e) "Server error"); reflexivity.
Qed.

Lemma read_error_message_pure resp s l :
  read_error_message resp s l = (error_message resp, s, l).
Proof.
  unfold read_error_message, error_message, try_catch, bind, lift, ret.
  destruct (json resp) as [d|e]; simpl.
  - destruct (detail_or_error d _); simpl; [reflexivity|]. now destruct (text resp).
  - now destruct (text resp).
Qed.

(** A non-2xx response. *)
Lemma submitAnswer_not_ok sd resp text file s l sid :
  truthy (currentQuestion s) = true ->
  get_prop sd "session_id" = Ok sid ->
  ok resp = false ->
  exists qid, get_prop (currentQuestion s) "id" = Ok qid /\
  let l1 := l ++ [submit_request sid qid text file] in
  submitAnswer sd (Ok resp) text file s l =
  match error_message resp with
  | Ok m =>
      (Ok tt, failed s (message (new_Error m)),
       if negb (includes (message (new_Error m)) "Server error")
       then (l1 ++ [Alert ("Error: " +:+ to_string m)]) ++ [generic_alert]
       else l1 ++ [Alert ("Error: " +:+ to_string m)])
  | Throw e =>
      (Ok tt, failed s (message e),
       if negb (includes (message e) "Server error") then l1 ++ [generic_alert] else l1)
  end.
Proof.
  intros Hq Hs Hok.
  destruct (truthy_get_prop _ "id" Hq) as [qid Hqid]. exists qid. split; [exact Hqid|].
  unfold submitAnswer, fail_not_ok, on_failure, try_finally, try_catch, bind, gets, lift,
    perform, alert, throw, ret, setLoading, setError, modify.
  cbn -[read_error_message includes new_Error to_string].
  rewrite Hq. cbn -[read_error_message includes new_Error to_string].
  rewrite Hs, Hqid. cbn -[read_error_message includes new_Error to_string].
  rewrite Hok. cbn -[read_error_message includes new_Error to_string].
  rewrite read_error_message_pure.
  destruct (error_message resp) as [m|e]; cbn -[includes new_Error to_string].
  - destruct (includes _ "Server error"); reflexivity.
  - destruct (includes _ "Server error"); reflexivity.
Qed.


Lemma submitAnswer_no_session sd net text file s l e :
  truthy (currentQuestion s) = true ->
  get_prop sd "session_id" = Throw e ->
  submitAnswer sd net text file s l =
  (Ok tt, failed s (message e),
   if negb (includes (message e) "Server error") then l ++ [generic_alert] else l).
Proof.
  intros Hq Hs. act_unfold. cbn -[includes]. rewrite Hq. cbn -[includes]. rewrite Hs.
  cbn -[includes]. destruct (includes _ "Server error"); reflexivity.
Qed.

Lemma submitAnswer_network_error sd text file s l sid e :
  truthy (currentQuestion s) = true ->
  get_prop sd "session_id" = Ok sid ->
  exists qid, get_prop (currentQuestion s) "id" = Ok qid /\
  let l1 := l ++ [submit_request sid qid text file] in
  submitAnswer sd (Throw e) text file s l =
  (Ok tt, failed s (message e),
   if negb (includes (message e) "Server error") then l1 ++ [generic_alert] else l1).
Proof.
  intros Hq Hs.
  destruct (truthy_get_prop _ "id" Hq) as [qid Hqid]. exists qid. split; [exact Hqid|].
  act_unfold. cbn -[includes]. rewrite Hq. cbn -[includes]. rewrite Hs, Hqid.
  cbn -[includes]. destruct (includes _ "Server error"); reflexivity.
Qed.

Lemma get_prop_throw_message v k e : get_prop v k = Throw e -> is_empty (message e) = false.
Proof. destruct v; simpl; intros [= <-]; reflexivity. Qed.

Lemma truthy_VStr m : truthy (VStr m) = negb (is_empty m).
Proof. reflexivity. Qed.

Lemma render_failed s msg :
  is_empty msg = false -> render (failed s msg) = Errored (VStr msg).
Proof.
  intros H. unfold render, failed. cbn [loading error]. rewrite (str_or_nonempty _ _ H).
  rewrite truthy_VStr, H. reflexivity.
Qed.

(** C7. A 2xx response whose parsed body has no (truthy) [evaluation]
    leaves Interview Flow in the Errored view, with the malformed-response
    message; a body that is [null] fails the same way with the host's
    message.  When the evaluation is there, the view is FeedbackShown and
    shows that evaluation. *)
Theorem C7_evaluation_required sd resp result text file s sid :
  truthy (currentQuestion s) = true ->
  get_prop sd "session_id" = Ok sid ->
  ok resp = true ->
  json resp = Ok result ->
  let s' := (submitAnswer sd (Ok resp) text file s []).1.2 in
  (forall ev, get_prop result "evaluation" = Ok ev -> truthy ev = false ->
     render s' = Errored (VStr "Invalid response format - missing evaluation"))
  /\ (forall e, get_prop result "evaluation" = Throw e -> render s' = Errored (VStr (message e)))
  /\ (forall ev, get_prop result "evaluation" = Ok ev -> truthy ev = true ->
        render s' = FeedbackShown ev).
Proof.
  intros Hq Hs Hok Hj s'.
  destruct (submitAnswer_2xx sd resp result text file s [] sid Hq Hs Hok Hj) as (qid & _ & E).
  cbv zeta in E. subst s'. rewrite E. clear E.
  repeat split.
  - intros ev -> Hev. rewrite Hev. now apply render_failed.
  - intros e He. rewrite He. apply render_failed. eapply get_prop_throw_message; eauto.
  - intros ev -> Hev. rewrite Hev. unfold render. cbn. now rewrite Hev.
Qed.

Lemma C7_evaluation_required_witness :
  render (submitAnswer Sample.sessionData (Ok Sample.no_evaluation) "x" None
            (mount Sample.sessionData) []).1.2
    = Errored (VStr "Invalid response format - missing evaluation")
  /\ render (submitAnswer Sample.sessionData (Ok Sample.next) "x" None
               (mount Sample.sessionData) []).1.2
    = FeedbackShown Sample.evaluation.
Proof.
  split.
  - refine (proj1 (C7_evaluation_required Sample.sessionData Sample.no_evaluation _ "x" None
                     (mount Sample.sessionData) (VStr "s-1") _ _ _ _) VUndefined _ _);
      reflexivity.
  - refine (proj2 (proj2 (C7_evaluation_required Sample.sessionData Sample.next _ "x" None
                     (mount Sample.sessionData) (VStr "s-1") _ _ _ _)) Sample.evaluation _ _);
      reflexivity.
Defined.

(** C2. For a successful submission response, [submitAnswer] arms exactly
    one timer, of 3000 ms, closing over that response; when it fires,
    exactly one of three cases applies: [interview_complete] is set and
    completion is signalled once, nothing else changing; or it is not set
    and there is a [next_question], which becomes the current question
    while the counter grows by one and the view is Active again; or
    neither, and the view is Errored with the unexpected-response
    message, question and counter unchanged. *)
Theorem C2_after_dwell sd resp result text file s sid ev :
  truthy (currentQuestion s) = true ->
  get_prop sd "session_id" = Ok sid ->
  ok resp = true ->
  json resp = Ok result ->
  get_prop result "evaluation" = Ok ev ->
  truthy ev = true ->
  let submitted := submitAnswer sd (Ok resp) text file s [] in
  let s1 := submitted.1.2 in
  let fired := after_dwell result s1 [] in
  let s2 := fired.1.2 in
  (exists request, submitted.2 = [request; SetTimeout 3000 result])
  /\ fired.1.1 = Ok tt
  /\ exists ic nq,
       get_prop result "interview_complete" = Ok ic
       /\ get_prop result "next_question" = Ok nq
       /\ ((truthy ic = true /\ fired.2 = [CallOnComplete] /\ s2 = s1)
           \/ (truthy ic = false /\ truthy nq = true /\ fired.2 = []
               /\ currentQuestion s2 = nq
               /\ questionNumber s2 = questionNumber s + 1
               /\ render s2 = Active)
           \/ (truthy ic = false /\ truthy nq = false /\ fired.2 = []
               /\ currentQuestion s2 = currentQuestion s
               /\ questionNumber s2 = questionNumber s
               /\ render s2 = Errored (VStr "Unexpected response from server"))).
Proof.
  intros Hq Hs Hok Hj Hev Hevt submitted s1 fired s2.
  destruct (submitAnswer_2xx sd resp result text file s [] sid Hq Hs Hok Hj) as (qid & _ & E).
  cbv zeta in E. rewrite Hev, Hevt in E.
  subst s2 fired s1 submitted. rewrite E. clear E. cbn [fst snd].
  split; [eexists; reflexivity|].
  destruct result as [| | | | | |fields]; cbn [get_prop] in Hev; try discriminate Hev;
    try (injection Hev as <-; discriminate Hevt).
  unfold after_dwell, bind, lift, perform, setCurrentQuestion, setQuestionNumber, setFeedback,
    setShowFeedback, setError, modify. cbn [get_prop].
  set (ic := lookup_field "interview_complete" fields).
  set (nq := lookup_field "next_question" fields).
  destruct (truthy ic) eqn:Hic; cbn.
  - split; [reflexivity|]. exists ic, nq. repeat split; auto.
  - destruct (truthy nq) eqn:Hnq; cbn.
    + split; [reflexivity|]. exists ic, nq. repeat split; auto.
      right; left. repeat split; auto.
    + split; [reflexivity|]. exists ic, nq. repeat split; auto.
      right; right. repeat split; auto.
Qed.

Lemma C2_after_dwell_witness :
  let s1 := (submitAnswer Sample.sessionData (Ok Sample.next) "=SUM(A1:A5)" None
               (mount Sample.sessionData) []).1.2 in
  let s2 := (after_dwell (VObj [("evaluation", Sample.evaluation);
                                ("next_question", Sample.question2)]) s1 []).1.2 in
  currentQuestion s2 = Sample.question2 /\ questionNumber s2 = 2 /\ render s2 = Active.
Proof.
  destruct (C2_after_dwell Sample.sessionData Sample.next
              (VObj [("evaluation", Sample.evaluation); ("next_question", Sample.question2)])
              "=SUM(A1:A5)" None (mount Sample.sessionData) (VStr "s-1") Sample.evaluation
              eq_refl eq_refl eq_refl eq_refl eq_refl eq_refl)
    as (_ & _ & ic & nq & Hic & Hnq & H).
  cbv zeta.
  injection Hic as <-. injection Hnq as <-.
  destruct H as [H|[H|H]].
  - destruct H as [F _]. discriminate F.
  - destruct H as (_ & _ & _ & Hc & Hn & Hr). split; [exact Hc | split; [exact Hn | exact Hr]].
  - destruct H as (_ & F & _). discriminate F.
Defined.

(** C5 as worded fails on a body that parses but names neither
    field: for the 500 response with body [{}] the fields [detail] and
    [error] are both [undefined], and the message shown is the default
    one. *)
Lemma C5_counterexample :
  ~ (forall (resp : Response) (data d e : Value),
       ok resp = false ->
       json resp = Ok data ->
       get_prop data "detail" = Ok d ->
       get_prop data "error" = Ok e ->
       error (submitAnswer Sample.sessionData (Ok resp) "x" None
                (mount Sample.sessionData) []).1.2
       = (if truthy d then d else e)).
Proof.
  intros H.
  specialize (H Sample.empty_object (VObj []) VUndefined VUndefined
                eq_refl eq_refl eq_refl eq_refl).
  discriminate H.
Qed.

(** C5, amended.  For a non-2xx response whose body parses to a JSON
    object the Errored view shows: the [detail] field when it is a
    non-empty string; else the [error] field when that is a non-empty
    string; else, when both are absent or falsy, the default
    "Failed to submit answer".  In particular [{"detail": "bad audio
    format"}] shows exactly "bad audio format". *)
Theorem C5_error_message sd resp txt file s sid :
  truthy (currentQuestion s) = true ->
  get_prop sd "session_id" = Ok sid ->
  ok resp = false ->
  let s' := (submitAnswer sd (Ok resp) txt file s []).1.2 in
  (forall fields, json resp = Ok (VObj fields) ->
     let d := lookup_field "detail" fields in
     let e := lookup_field "error" fields in
     (forall m, d = VStr m -> is_empty m = false -> render s' = Errored (VStr m))
     /\ (forall m, truthy d = false -> e = VStr m -> is_empty m = false ->
           render s' = Errored (VStr m))
     /\ (truthy d = false -> truthy e = false ->
           render s' = Errored (VStr "Failed to submit answer")))
  /\ (json resp = Ok (VObj [("detail", VStr "bad audio format")]) ->
        render s' = Errored (VStr "bad audio format")).
Proof.
  intros Hq Hs Hok s'.
  destruct (submitAnswer_not_ok sd resp txt file s [] sid Hq Hs Hok) as (qid & _ & E).
  cbv zeta in E. subst s'. rewrite E. clear E.
  assert (Hd : forall fields m, json resp = Ok (VObj fields) ->
               lookup_field "detail" fields = VStr m -> is_empty m = false ->
               error_message resp = Ok (VStr m)).
  { intros fields m Hj Hm Hne. unfold error_message, detail_or_error. rewrite Hj.
    cbn [get_prop]. rewrite Hm, truthy_VStr, Hne. reflexivity. }
  split.
  - intros fields Hj d e. subst d e. split; [|split].
    + intros m Hm Hne. rewrite (Hd _ _ Hj Hm Hne). now apply render_failed.
    + intros m Hdf He Hne. unfold error_message, detail_or_error. rewrite Hj.
      cbn [get_prop]. rewrite Hdf, He, truthy_VStr, Hne. cbn [negb]. now apply render_failed.
    + intros Hdf Hef. unfold error_message, detail_or_error. rewrite Hj.
      cbn [get_prop]. rewrite Hdf, Hef. now apply render_failed.
  - intros Hj. rewrite (Hd _ "bad audio format" Hj eq_refl eq_refl). now apply render_failed.
Qed.

Lemma C5_error_message_witness :
  render (submitAnswer Sample.sessionData (Ok Sample.bad_audio) "x" None
            (mount Sample.sessionData) []).1.2 = Errored (VStr "bad audio format")
  /\ render (submitAnswer Sample.sessionData (Ok Sample.empty_object) "x" None
               (mount Sample.sessionData) []).1.2 = Errored (VStr "Failed to submit answer").
Proof.
  split.
  - exact (proj2 (C5_error_message Sample.sessionData Sample.bad_audio "x" None
                    (mount Sample.sessionData) (VStr "s-1") eq_refl eq_refl eq_refl)
             eq_refl).
  - exact (proj2 (proj2 (proj1 (C5_error_message Sample.sessionData Sample.empty_object "x" None
                                  (mount Sample.sessionData) (VStr "s-1") eq_refl eq_refl eq_refl)
                           [] eq_refl))
             eq_refl eq_refl).
Defined.

(** Every non-2xx response whose message does not contain "Server error"
    is announced by two alerts: the one of the non-2xx block and the
    generic one of the failure handler. *)
Lemma non_2xx_alerts sd resp text file s sid m :
  truthy (currentQuestion s) = true ->
  get_prop sd "session_id" = Ok sid ->
  ok resp = false ->
  error_message resp = Ok m ->
  includes (message (new_Error m)) "Server error" = false ->
  alerts (submitAnswer sd (Ok resp) text file s []).2 =
  ["Error: " +:+ to_string m;
   "Failed to submit answer. Please check your connection and try again."].
Proof.
  intros Hq Hs Hok Hm Hinc.
  destruct (submitAnswer_not_ok sd resp text file s [] sid Hq Hs Hok) as (qid & _ & E).
  cbv zeta in E. rewrite E, Hm, Hinc. reflexivity.
Qed.

(** C6, on the code.  The 400 response with body
    [{"detail": "bad audio format"}] is announced twice: its message does
    not contain "Server error", so the failure handler alerts again. *)
Theorem C6_failure_alerted_twice :
  alerts (submitAnswer Sample.sessionData (Ok Sample.bad_audio) "x" None
            (mount Sample.sessionData) []).2 =
  ["Error: bad audio format";
   "Failed to submit answer. Please check your connection and try again."].
Proof. reflexivity. Qed.

Lemma submitAnswer_2xx_unparseable sd resp txt file s l sid e :
  truthy (currentQuestion s) = true ->
  get_prop sd "session_id" = Ok sid ->
  ok resp = true ->
  json resp = Throw e ->
  exists qid, get_prop (currentQuestion s) "id" = Ok qid /\
  let l1 := l ++ [submit_request sid qid txt file] in
  submitAnswer sd (Ok resp) txt file s l =
  (Ok tt, failed s (message e),
   if negb (includes (message e) "Server error") then l1 ++ [generic_alert] else l1).
Proof.
  intros Hq Hs Hok Hj.
  destruct (truthy_get_prop _ "id" Hq) as [qid Hqid]. exists qid. split; [exact Hqid|].
  act_unfold. cbn -[includes]. rewrite Hq. cbn -[includes]. rewrite Hs, Hqid.
  cbn -[includes]. rewrite Hok. cbn -[includes]. rewrite Hj.
  cbn -[includes]. destruct (includes _ "Server error"); reflexivity.
Qed.

Lemma sends_answer_text_request sid qid txt file :
  sends_answer_text txt (submit_request sid qid txt file).
Proof.
  unfold sends_answer_text, submit_request, formData, getAll. rewrite str_or_empty_r.
  destruct file; reflexivity.
Qed.

(** [submitAnswer] always returns: it only extends the log, with at most
    one request, which carries [answer_text]. *)
Lemma submitAnswer_shape sd net txt file s l :
  exists s' post,
    submitAnswer sd net txt file s l = (Ok tt, s', l ++ post)
    /\ Forall (sends_answer_text txt) post.
Proof.
  assert (Hreq := sends_answer_text_request).
  assert (Hfin : forall (c : bool) (s' : State) (pre : list Effect) x,
             Forall (sends_answer_text txt) pre -> sends_answer_text txt x ->
             exists s0 post,
               (@Ok unit tt, s', if c then (l ++ pre) ++ [x] else l ++ pre)
               = (Ok tt, s0, l ++ post) /\ Forall (sends_answer_text txt) post).
  { intros c s' pre x Hpre Hx. destruct c.
    - exists s', (pre ++ [x]). rewrite app_assoc. split; [reflexivity|].
      apply Forall_app; split; auto.
    - exists s', pre. auto. }
  destruct (truthy (currentQuestion s)) eqn:Hq.
  2:{ rewrite submitAnswer_no_question by exact Hq. do 2 eexists. split; [reflexivity|].
      repeat constructor. }
  destruct (get_prop sd "session_id") as [sid|e] eqn:Hs.
  2:{ rewrite (submitAnswer_no_session _ _ _ _ _ _ _ Hq Hs).
      destruct (Hfin (negb (includes (message e) "Server error")) (failed s (message e)) []
                  generic_alert) as (s0 & post & E & F); [constructor|exact I|].
      rewrite !app_nil_r in E. eauto. }
  destruct net as [resp|e].
  2:{ destruct (submitAnswer_network_error sd txt file s l sid e Hq Hs) as (qid & _ & E).
      cbv zeta in E. rewrite E. apply Hfin; [repeat constructor; apply Hreq|exact I]. }
  destruct (ok resp) eqn:Hok.
  - destruct (json resp) as [result|e] eqn:Hj.
    + destruct (submitAnswer_2xx sd resp result txt file s l sid Hq Hs Hok Hj) as (qid & _ & E).
      cbv zeta in E. rewrite E. clear E.
      destruct (get_prop result "evaluation") as [ev|e].
      * destruct (truthy ev).
        -- apply (Hfin true); [repeat constructor; apply Hreq|exact I].
        -- apply (Hfin true); [repeat constructor; apply Hreq|exact I].
      * apply Hfin; [repeat constructor; apply Hreq|exact I].
    + destruct (submitAnswer_2xx_unparseable sd resp txt file s l sid e Hq Hs Hok Hj)
        as (qid & _ & E).
      cbv zeta in E. rewrite E. apply Hfin; [repeat constructor; apply Hreq|exact I].
  - destruct (submitAnswer_not_ok sd resp txt file s l sid Hq Hs Hok) as (qid & _ & E).
    cbv zeta in E. rewrite E. clear E.
    destruct (error_message resp) as [m|e].
    + rewrite <- (app_assoc l [submit_request sid qid txt file]
                              [Alert ("Error: " +:+ to_string m)]).
      apply Hfin; [|exact I]. constructor; [apply Hreq|repeat constructor].
    + apply Hfin; [repeat constructor; apply Hreq|exact I].
Qed.

End InterviewFlow.

(** ** Answer Capture *)

Section AnswerCapture.
Import AudioRecorder.

Lemma is_empty_true s : is_empty s = true <-> s = "".
Proof. destruct s; simpl; split; congruence. Qed.

Lemma length_pos_nonempty s : (0 <? String.length s)%nat = negb (is_empty s).
Proof. now destruct s. Qed.

Lemma trim_empty_of_empty s : is_empty s = true -> is_empty (trim s) = true.
Proof. intros H. apply is_empty_true in H. now subst. Qed.

(** [hasText] of [handleSubmit] says that the trimmed text is not empty. *)
Lemma hasText_spec t :
  negb (is_empty t) && (0 <? String.length (trim t))%nat = negb (is_empty (trim t)).
Proof.
  rewrite length_pos_nonempty. destruct (is_empty t) eqn:E; [|reflexivity].
  now rewrite (trim_empty_of_empty _ E).
Qed.

Lemma hand_off_spec {P} (onSubmit : string -> option File -> Act P unit) t f s p l :
  hand_off onSubmit t f (s, p) l =
  match onSubmit t f p (l ++ [CallOnSubmit t f]) with
  | (Ok _, p', l') => (Ok tt, (cleared s, p'), l')
  | (Throw _, p', l') => (Ok tt, (s, p'), l')
  end.
Proof.
  unfold hand_off, try_catch, bind, perform, in_parent, in_child, modify, ret. cbn [fst snd].
  destruct (onSubmit t f p _) as [[[u|e] p'] l']; reflexivity.
Qed.


(** Text or audio, and a [File] constructor that does not throw: the
    answer is handed to the prop. *)
Lemma handleSubmit_accepted {P} (onSubmit : string -> option File -> Act P unit) s p l :
  (forall b, audioBlob s = Some b -> 0 < blob_size b) ->
  is_empty (trim (answerText s)) = false \/ audioBlob s <> None ->
  handleSubmit onSubmit None (s, p) l =
  hand_off onSubmit (trim (answerText s)) (audio_file <$> audioBlob s) (s, p) l.
Proof.
  intros Hpos Hacc. unfold handleSubmit, bind at 1, gets. cbn [fst].
  rewrite hasText_spec, str_or_empty_r.
  destruct (audioBlob s) as [b|] eqn:Hb.
  - assert (Hb' : (0 <? blob_size b) = true) by (apply Z.ltb_lt; auto).
    rewrite Hb'. rewrite andb_false_r. reflexivity.
  - destruct Hacc as [Ht|Hn]; [|congruence]. rewrite Ht. reflexivity.
Qed.

(** Whatever the prop does, [handleSubmit] leaves the form as it was or
    cleared. *)
(** [handleSubmit] without its control flow. *)
Lemma handleSubmit_unfold {P} (onSubmit : string -> option File -> Act P unit) ft s p l :
  handleSubmit onSubmit ft (s, p) l =
  let t := trim (answerText s) in
  let hasAudio := match audioBlob s with Some b => 0 <? blob_size b | None => false end in
  if negb (negb (is_empty t)) && negb hasAudio then (Ok tt, (s, p), l ++ [empty_answer_warning])
  else
    match audioBlob s with
    | Some b =>
        if 0 <? blob_size b then
          match ft with
          | Some _ =>
              (Ok tt, (s, p), l ++ [Alert "Error processing audio. Please try recording again."])
          | None => hand_off onSubmit t (Some (audio_file b)) (s, p) l
          end
        else hand_off onSubmit t None (s, p) l
    | None => hand_off onSubmit t None (s, p) l
    end.
Proof.
  unfold handleSubmit, bind at 1, gets. cbn [fst].
  rewrite hasText_spec, str_or_empty_r. cbv zeta.
  destruct (negb _ && negb _); [reflexivity|].
  destruct (audioBlob s) as [b|]; [|reflexivity].
  destruct (0 <? blob_size b); [|reflexivity].
  destruct ft; reflexivity.
Qed.

(** Whatever the prop does, [handleSubmit] leaves the form as it was or
    cleared. *)
Lemma handleSubmit_form {P} (onSubmit : string -> option File -> Act P unit) ft s p l :
  exists r p' l',
    handleSubmit onSubmit ft (s, p) l = (r, (s, p'), l')
    \/ handleSubmit onSubmit ft (s, p) l = (r, (cleared s, p'), l').
Proof.
  assert (H : forall f, exists r p' l',
             hand_off onSubmit (trim (answerText s)) f (s, p) l = (r, (s, p'), l')
             \/ hand_off onSubmit (trim (answerText s)) f (s, p) l = (r, (cleared s, p'), l')).
  { intros f. rewrite hand_off_spec.
    destruct (onSubmit _ f p _) as [[[u|e] p'] l']; eauto 6. }
  rewrite handleSubmit_unfold. cbv zeta.
  destruct (negb _ && negb _); [eauto 6|].
  destruct (audioBlob s) as [b|]; [|apply H].
  destruct (0 <? blob_size b); [|apply H].
  destruct ft; [eauto 6|apply H].
Qed.

Ltac act_run :=
  unfold fire_dataavailable_and_stop, startRecording_call, startRecording_resume, start_failed,
    ondataavailable, onstop, onerror, stopRecording, clearRecording, or_throw,
    with_state, with_refs, with_host, update_recorder, stop_tracks,
    try_finally, try_catch, bind, ret, throw, lift, gets, modify, alert, perform in *.

Lemma evolves_refl rs : evolves rs rs.
Proof. intros rid r H. eauto. Qed.

Lemma evolves_trans a b c : evolves a b -> evolves b c -> evolves a c.
Proof.
  intros H1 H2 rid r H. destruct (H1 _ _ H) as (r' & H' & E & F).
  destruct (H2 _ _ H') as (r'' & H'' & E' & F'). exists r''. repeat split; auto; congruence.
Qed.

Lemma evolves_app rs r0 : evolves rs (rs ++ [r0]).
Proof. intros rid r H. exists r. split; [|auto]. now apply lookup_app_l_Some. Qed.

Lemma evolves_set_phase rs rid p : p <> Created -> evolves rs (alter (set_phase p) rid rs).
Proof.
  intros Hp i r H. destruct (decide (rid = i)) as [->|Hne].
  - exists (set_phase p r). rewrite list_lookup_alter_eq, H. auto.
  - exists r. rewrite list_lookup_alter_ne by auto. auto.
Qed.

Lemma HInv_add_stream ss rs s : HInv ss rs -> HInv (ss ++ [s]) rs.
Proof.
  intros H rid r Hr. destruct (H _ _ Hr) as [Hlt Hd]. split.
  - rewrite length_app. lia.
  - intros Hp tracks Ht. rewrite lookup_app_l in Ht by auto. eauto.
Qed.

Lemma HInv_add_recorder ss rs sid a b :
  HInv ss rs -> (sid < length ss)%nat -> HInv ss (rs ++ [mkRecorder sid Created a b]).
Proof.
  intros H Hs rid r Hr. apply lookup_app_Some in Hr as [Hr|[_ Hr]]; [eauto|].
  apply list_lookup_singleton_Some in Hr as [_ <-]. split; [exact Hs|discriminate].
Qed.

Lemma HInv_set_phase ss rs rid p : HInv ss rs -> p <> Stopped -> HInv ss (alter (set_phase p) rid rs).
Proof.
  intros H Hp i r Hr. destruct (decide (rid = i)) as [->|Hne].
  - rewrite list_lookup_alter_eq in Hr. destruct (rs !! i) as [r0|] eqn:E; [|discriminate].
    injection Hr as <-. destruct (H _ _ E) as [Hlt _]. split; [exact Hlt|]. intros F. now destruct Hp.
  - rewrite list_lookup_alter_ne in Hr by auto. eauto.
Qed.

Lemma dead_kill (tracks : list bool) : dead (List.map (fun _ => false) tracks).
Proof. induction tracks; constructor; auto. Qed.

Lemma HInv_kill ss rs sid : HInv ss rs -> HInv (alter (List.map (fun _ => false)) sid ss) rs.
Proof.
  intros H rid r Hr. destruct (H _ _ Hr) as [Hlt Hd]. split.
  - now rewrite length_alter.
  - intros Hp tracks Ht. destruct (decide (sid = mr_stream r)) as [E|Hne].
    + rewrite E, list_lookup_alter_eq in Ht. destruct (ss !! mr_stream r); [|discriminate].
      injection Ht as <-. apply dead_kill.
    + rewrite list_lookup_alter_ne in Ht by auto. eauto.
Qed.

Lemma HInv_stopped ss rs rid r :
  HInv ss rs -> rs !! rid = Some r ->
  (forall tracks, ss !! mr_stream r = Some tracks -> dead tracks) ->
  HInv ss (alter (set_phase Stopped) rid rs).
Proof.
  intros H Hr Hd i r' Hr'. destruct (decide (rid = i)) as [->|Hne].
  - rewrite list_lookup_alter_eq, Hr in Hr'. injection Hr' as <-.
    destruct (H _ _ Hr) as [Hlt _]. split; [exact Hlt|]. intros _. exact Hd.
  - rewrite list_lookup_alter_ne in Hr' by auto. eauto.
Qed.

Lemma killed_dead (ss : list (list bool)) (sid : nat) tracks :
  alter (List.map (fun _ => false)) sid ss !! sid = Some tracks -> dead tracks.
Proof.
  rewrite list_lookup_alter_eq. destruct (ss !! sid); [|discriminate].
  intros [= <-]. apply dead_kill.
Qed.

Lemma recorder_in_Some p h rid r :
  recorder_in p h rid = Some r -> recorders h !! rid = Some r /\ mr_phase r = p.
Proof.
  unfold recorder_in. destruct (recorders h !! rid) as [r0|]; [|discriminate].
  destruct (mr_phase r0) eqn:E, p; try discriminate; intros [= <-]; auto.
Qed.

Ltac proj_simpl :=
  cbn [state refs host disabled mounted streams recorders pending_getUserMedia intervals
       chunksRef mediaRecorderRef timerRef isRecording audioBlob answerText recordingTime
       set_isRecording set_audioBlob set_answerText set_recordingTime cleared fst snd] in *.

Ltac inv_goal m :=
  split; [unfold Inv; split; [|split; [try (destruct m)|]] |]; proj_simpl.

Lemma new_Blob_positive chunks type :
  Forall (fun b => 0 < blob_size b) chunks -> (0 <? length chunks)%nat = true ->
  0 < blob_size (new_Blob chunks type).
Proof.
  intros H Hl. unfold new_Blob. cbn [blob_size].
  destruct chunks as [|c cs]; [discriminate|].
  inversion H as [|? ? Hc Hcs]; subst. cbn [List.map fold_right].
  assert (0 <= fold_right Z.add 0 (List.map blob_size cs)).
  { clear -Hcs. induction Hcs; cbn; lia. }
  lia.
Qed.


Lemma fire_inv rid r r0 data w l res w' l' :
  Inv w -> recorders (host w) !! rid = Some r0 -> mr_stream r0 = mr_stream r ->
  fire_dataavailable_and_stop rid r data w l = (res, w', l') ->
  Inv w' /\ evolves (recorders (host w)) (recorders (host w')).
Proof.
  intros (Hc & Hb & Hh) Hr Hs H. destruct w as [d st rf h m]. proj_simpl.
  assert (Hfin : forall ss, ss = alter (List.map (fun _ => false)) (mr_stream r) (streams h) ->
                 HInv ss (alter (set_phase Stopped) rid (recorders h))).
  { intros ss ->. eapply HInv_stopped; [now apply HInv_kill|exact Hr|].
    rewrite Hs. intros tracks. apply killed_dead. }
  assert (Hev : evolves (recorders h) (alter (set_phase Stopped) rid (recorders h))).
  { apply evolves_set_phase. discriminate. }
  act_run. destruct (0 <? blob_size data) eqn:E; cbn -[Nat.ltb] in H.
  - destruct (0 <? length (chunksRef rf ++ [data]))%nat eqn:El; cbn -[Nat.ltb] in H;
      try rewrite El in H; injection H as <- <- <-; inv_goal m; auto.
    + apply Forall_app; split; auto. constructor; [lia|constructor].
    + intros b [= <-]. apply new_Blob_positive; auto.
      apply Forall_app; split; auto. constructor; [lia|constructor].
    + apply Forall_app; split; auto. constructor; [lia|constructor].
  - destruct (0 <? length (chunksRef rf))%nat eqn:El; cbn -[Nat.ltb] in H;
      try rewrite El in H; injection H as <- <- <-; inv_goal m; auto.
    intros b [= <-]. apply new_Blob_positive; auto.
Qed.
Lemma step_inv e w w' l :
  step e w = Some (w', l) -> Inv w ->
  Inv w' /\ evolves (recorders (host w)) (recorders (host w')).
Proof.
  unfold step, dispatch. intros H (Hc & Hb & Hh).
  destruct w as [d st rf h m]. proj_simpl.
  assert (HI : Inv (mkWorld d st rf h m)) by (split; [|split]; assumption).
  destruct e.
  - (* ClickStart *)
    destruct (_ && _); [|discriminate]. act_run. cbn in H. injection H as <- <-.
    inv_goal m; auto using evolves_refl.
  - (* GetUserMediaSettled *)
    destruct (_ <? _)%nat; [|discriminate]. act_run. cbn in H.
    destruct (getUserMedia o) as [n|ex]; cbn in H.
    + destruct (constructor_throws o); cbn in H.
      * injection H as <- <-. inv_goal m; auto using evolves_refl, HInv_add_stream.
      * destruct (start_throws o); cbn in H; injection H as <- <-; inv_goal m; auto.
        -- apply HInv_add_recorder; [now apply HInv_add_stream|]. rewrite length_app. cbn. lia.
        -- apply evolves_app.
        -- apply HInv_set_phase; [|discriminate].
           apply HInv_add_recorder; [now apply HInv_add_stream|]. rewrite length_app. cbn. lia.
        -- eapply evolves_trans; [apply evolves_app|]. apply evolves_set_phase. discriminate.
    + injection H as <- <-. inv_goal m; auto using evolves_refl.
  - (* DataAvailable *)
    destruct (recorder_in _ _ _); [|discriminate]. act_run.
    destruct (0 <? blob_size data) eqn:E; cbn in H; injection H as <- <-;
      inv_goal m; auto using evolves_refl.
    apply Forall_app; split; auto. constructor; [lia|constructor].
  - (* ClickStop *)
    destruct (_ && _); [|discriminate]. act_run. cbn in H.
    destruct (mediaRecorderRef rf) as [rid|]; cbn in H.
    + destruct (negb _); cbn in H.
      * destruct (timerRef rf); cbn in H; injection H as <- <-; inv_goal m; auto;
          try (apply HInv_set_phase; [auto|discriminate]);
          try (apply evolves_set_phase; discriminate).
      * injection H as <- <-. inv_goal m; auto using evolves_refl.
    + injection H as <- <-. inv_goal m; auto using evolves_refl.
  - (* StopTask *)
    destruct (recorder_in _ _ _) as [r|] eqn:Hr; [|discriminate].
    apply recorder_in_Some in Hr as [Hr Hp]. proj_simpl.
    destruct (fire_dataavailable_and_stop _ _ _ _ _) as [[res w1] l1] eqn:F.
    injection H as <- <-. exact (fire_inv _ _ r _ _ _ _ _ _ HI Hr eq_refl F).
  - (* RecorderError *)
    destruct (recorder_in _ _ _) as [r|] eqn:Hr; [|discriminate].
    apply recorder_in_Some in Hr as [Hr Hp]. proj_simpl.
    unfold bind at 1 2, with_host, modify, onerror, bind at 1, alert, perform, with_state, modify in H.
    cbn [app] in H. proj_simpl.
    destruct (fire_dataavailable_and_stop _ _ _ _ _) as [[res w1] l1] eqn:F.
    assert (HI' : Inv (mkWorld d (if m then set_isRecording false st else st) rf
                         (update_recorder rid (set_phase StopQueued) h) m)).
    { split; [|split; [destruct m|]]; proj_simpl; auto. unfold update_recorder. proj_simpl.
      apply HInv_set_phase; [auto|discriminate]. }
    assert (Hr' : recorders (update_recorder rid (set_phase StopQueued) h) !! rid
                  = Some (set_phase StopQueued r)).
    { unfold update_recorder. proj_simpl. now rewrite list_lookup_alter_eq, Hr. }
    destruct (fire_inv _ _ _ _ _ _ _ _ _ HI' Hr' eq_refl F) as [F1 F2]. proj_simpl.
    assert (w1 = w' /\ l1 = l) as [<- <-] by (destruct res; injection H; auto).
    split; [exact F1|]. eapply evolves_trans; [|exact F2].
    unfold update_recorder. proj_simpl. apply evolves_set_phase. discriminate.
  - (* TracksEnded *)
    destruct (recorder_in _ _ _) as [r|] eqn:Hr; [|discriminate].
    apply recorder_in_Some in Hr as [Hr Hp]. proj_simpl.
    unfold bind at 1 2, with_host, modify in H. proj_simpl.
    destruct (fire_dataavailable_and_stop _ _ _ _ _) as [[res w1] l1] eqn:F.
    assert (HI' : Inv (mkWorld d st rf
                         (update_recorder rid (set_phase StopQueued) (stop_tracks (mr_stream r) h)) m)).
    { split; [|split]; proj_simpl; auto. unfold update_recorder, stop_tracks. proj_simpl.
      apply HInv_set_phase; [now apply HInv_kill|discriminate]. }
    assert (Hr' : recorders (update_recorder rid (set_phase StopQueued) (stop_tracks (mr_stream r) h)) !! rid
                  = Some (set_phase StopQueued r)).
    { unfold update_recorder, stop_tracks. proj_simpl. now rewrite list_lookup_alter_eq, Hr. }
    destruct (fire_inv _ _ _ _ _ _ _ _ _ HI' Hr' eq_refl F) as [F1 F2]. proj_simpl.
    assert (w1 = w' /\ l1 = l) as [<- <-] by (destruct res; injection H; auto).
    split; [exact F1|]. eapply evolves_trans; [|exact F2].
    unfold update_recorder, stop_tracks. proj_simpl. apply evolves_set_phase. discriminate.
  - (* ClickClear *)
    destruct (_ && _); [|discriminate]. act_run. cbn in H.
    injection H as <- <-. inv_goal m; auto using evolves_refl. discriminate.
  - (* TypeText *)
    destruct (_ && _); [|discriminate]. act_run. cbn in H.
    injection H as <- <-. inv_goal m; auto using evolves_refl.
  - (* ClickSubmit *)
    destruct (_ && negb _); [|discriminate]. cbn beta in H. proj_simpl.
    destruct (handleSubmit_form onSubmit file_throws st tt []) as (r & p' & l' & [E|E]);
      rewrite E in H; injection H as <- <-; inv_goal m; auto using evolves_refl; discriminate.
  - (* Tick *)
    destruct (intervals h !! timer) as [[|]|]; try discriminate. act_run. cbn in H.
    injection H as <- <-. inv_goal m; auto using evolves_refl.
  - (* SetDisabled *)
    destruct m; [|discriminate]. act_run. cbn in H. injection H as <- <-.
    split; [split; [|split]|]; proj_simpl; auto using evolves_refl.
  - (* Unmount *)
    destruct m; [|discriminate]. act_run. cbn in H. injection H as <- <-.
    split; [split; [|split]|]; proj_simpl; auto using evolves_refl.
Qed.

Lemma fire_stops rid r data w l :
  exists w' l',
    fire_dataavailable_and_stop rid r data w l = (Ok tt, w', l')
    /\ recorders (host w') = alter (set_phase Stopped) rid (recorders (host w)).
Proof.
  destruct w as [d st rf h m]. act_run.
  destruct (0 <? blob_size data); cbn -[Nat.ltb].
  - destruct (0 <? length (chunksRef rf ++ [data]))%nat; cbn; eauto.
  - destruct (0 <? length (chunksRef rf))%nat; cbn; eauto.
Qed.

Lemma reachable_inv w : reachable w -> Inv w.
Proof.
  induction 1 as [|e w w' l _ IH Hstep].
  - split; [constructor|split]; [discriminate|]. intros rid r H. discriminate H.
  - exact (proj1 (step_inv _ _ _ _ Hstep IH)).
Qed.

Lemma run_reachable es : forall w w', reachable w -> run es w = Some w' -> reachable w'.
Proof.
  induction es as [|e es IH]; intros w w' Hw H; cbn in H.
  - now injection H as <-.
  - destruct (step e w) as [[w1 l1]|] eqn:E; [|discriminate].
    eapply IH; [|exact H]. eapply reachable_step; eauto.
Qed.

Lemma run_evolves es : forall w w',
  Inv w -> run es w = Some w' -> evolves (recorders (host w)) (recorders (host w')).
Proof.
  induction es as [|e es IH]; intros w w' Hw H; cbn in H.
  - injection H as <-. apply evolves_refl.
  - destruct (step e w) as [[w1 l1]|] eqn:E; [|discriminate].
    destruct (step_inv _ _ _ _ E Hw) as [Hw1 Hev].
    eapply evolves_trans; [exact Hev|]. now apply IH.
Qed.

Lemma stopped_tracks_stopped w rid r :
  Inv w -> recorders (host w) !! rid = Some r -> mr_phase r = Stopped ->
  tracks_stopped (host w) (mr_stream r).
Proof.
  intros (_ & _ & Hh) Hr Hp. destruct (Hh _ _ Hr) as [Hlt Hd].
  destruct (lookup_lt_is_Some_2 _ _ Hlt) as [tracks Ht]. exists tracks. split; eauto.
Qed.

(** What the start control guards: it is on the page exactly when the
    component is neither recording nor holding a recording. *)
Lemma start_button_rendered_iff s :
  start_button_rendered s = true <-> isRecording s = false /\ audioBlob s = None.
Proof.
  unfold start_button_rendered, has_blob.
  destruct (isRecording s), (audioBlob s); cbn; split; intros H; try discriminate; auto;
    destruct H; discriminate.
Qed.



(** Exits through the recorder's [stop] event.  Take a recorder that is
    recording in a reachable state, and any continuation.  The recorder
    is then still recording; or [stop()] has been called and the task that
    fires [dataavailable] and [stop] is queued, and running it, whatever
    the last chunk, leaves all tracks of the recorder's stream stopped; or
    its [stop] event has been dispatched (after a stop, a recorder error
    or the end of the tracks, with or without chunks) and all tracks of
    its stream are stopped. *)
Lemma stop_event_releases_tracks w es w' rid r :
  reachable w ->
  recorders (host w) !! rid = Some r ->
  mr_phase r = Recording ->
  run es w = Some w' ->
  exists r',
    recorders (host w') !! rid = Some r' /\ mr_stream r' = mr_stream r /\
    (mr_phase r' = Recording
     \/ (mr_phase r' = StopQueued /\
         forall data, exists w'' l, step (StopTask rid data) w' = Some (w'', l)
                                    /\ tracks_stopped (host w'') (mr_stream r))
     \/ (mr_phase r' = Stopped /\ tracks_stopped (host w') (mr_stream r))).
Proof.
  intros Hw Hr Hp Hrun.
  pose proof (run_reachable _ _ _ Hw Hrun) as Hw'.
  destruct (run_evolves _ _ _ (reachable_inv _ Hw) Hrun _ _ Hr) as (r' & Hr' & Hs & Hc).
  exists r'. split; [exact Hr'|]. split; [exact Hs|].
  destruct (mr_phase r') eqn:Hp'.
  - exfalso. apply Hc; [rewrite Hp; discriminate|reflexivity].
  - now left.
  - right; left. split; [reflexivity|]. intros data.
    unfold step, dispatch, recorder_in. rewrite Hr', Hp'.
    destruct (fire_stops rid r' data w' []) as (w'' & l & E & Hrec). rewrite E.
    exists w'', l. split; [reflexivity|].
    assert (Hst : step (StopTask rid data) w' = Some (w'', l)).
    { unfold step, dispatch, recorder_in. now rewrite Hr', Hp', E. }
    pose proof (reachable_inv _ (reachable_step _ _ _ _ Hw' Hst)) as Hi.
    rewrite <- Hs. change (mr_stream r') with (mr_stream (set_phase Stopped r')).
    apply (stopped_tracks_stopped w'' rid); [exact Hi| |reflexivity].
    now rewrite Hrec, list_lookup_alter_eq, Hr'.
  - right; right. split; [reflexivity|]. rewrite <- Hs.
    apply (stopped_tracks_stopped w' rid); [now apply reachable_inv|exact Hr'|exact Hp'].
Qed.

Lemma recording_world_reachable : reachable Sample.recording_world.
Proof.
  apply (run_reachable [ClickStart; GetUserMediaSettled Sample.microphone] init);
    [constructor|vm_compute; reflexivity].
Qed.

(** A recorder error with nothing captured: no blob, tracks stopped. *)
Lemma recorder_error_releases_tracks :
  exists w',
    run [RecorderError 0 Sample.no_data] Sample.recording_world = Some w'
    /\ audioBlob (state w') = None
    /\ tracks_stopped (host w') 0.
Proof.
  eexists. split; [vm_compute; reflexivity|]. split; [reflexivity|].
  destruct (stop_event_releases_tracks Sample.recording_world [RecorderError 0 Sample.no_data]
              _ 0%nat _ recording_world_reachable eq_refl eq_refl eq_refl)
    as (r' & Hr' & _ & H).
  injection Hr' as <-.
  destruct H as [H|[[H _]|[_ H]]]; [discriminate H|discriminate H|exact H].
Qed.

(** C9, on the code.  Two exits from an active recording leave the
    microphone live.  The component has no cleanup: unmounting changes
    nothing on the host and takes the stop control away.  Interview stops
    rendering the recorder as soon as a submission sets [loading], and
    the submit button is enabled while recording once text is typed; so
    after start, typing and submit (as after Home) the recorder is still
    recording, its track is live and its interval armed, with no control
    left to stop them.  And when [mediaRecorder.start] or the
    [MediaRecorder] constructor throws after [getUserMedia] has resolved,
    the [catch] block only alerts: the track just acquired stays live
    while nothing records, and the start control is offered again. *)
Theorem C9_recording_left_live :
  (forall d st rf h,
     step Unmount (mkWorld d st rf h true) = Some (mkWorld d st rf h false, [])
     /\ step ClickStop (mkWorld d st rf h false) = None)
  /\ (forall s l, Interview.renders_recorder
                    (Interview.render (Interview.setLoading true s l).1.2) = false)
  /\ left_of_recording
       <$> run [ClickStart; GetUserMediaSettled Sample.microphone; Unmount] init
     = Some (Some Recording, Some [true], Some true, false, false)
  /\ left_of_recording
       <$> run [ClickStart; GetUserMediaSettled Sample.microphone; TypeText "=SUM(A1:A5)";
               ClickSubmit None (fun _ _ => ret tt); Unmount] init
     = Some (Some Recording, Some [true], Some true, false, false)
  /\ (fun w => (left_of_recording w, length (active_recordings w)))
       <$> run [ClickStart; GetUserMediaSettled Sample.start_refused] init
     = Some (Some Created, Some [true], None, false, true, 0%nat)
  /\ (fun w => (left_of_recording w, length (active_recordings w)))
       <$> run [ClickStart; GetUserMediaSettled Sample.constructor_refused] init
     = Some (None, Some [true], None, false, true, 0%nat)
  /\ snd <$> (step ClickStart init ≫= fun wl =>
              step (GetUserMediaSettled Sample.start_refused) wl.1)
     = Some [Alert "Failed to access microphone. Please check permissions and try again."].
Proof.
  split; [|split; [|repeat split; vm_compute; reflexivity]].
  - intros d st rf h. split; reflexivity.
  - intros s l. reflexivity.
Qed.

(** C8, on the code.  "Start Recording" clicked twice before the first
    [getUserMedia] promise settles: both calls resume, and two recorders
    are recording at once. *)
Theorem C8_double_start_two_recordings :
  (fun w => length (active_recordings w))
    <$> run [ClickStart; ClickStart;
             GetUserMediaSettled Sample.microphone; GetUserMediaSettled Sample.microphone] init
  = Some 2%nat.
Proof. vm_compute. reflexivity. Qed.

(** After that, stopping through the only stop control leaves the first
    recorder recording and its track live, while the page offers the
    completed recording of the second. *)
Lemma double_start_leaks_first_recording :
  (fun w => (stop_button_rendered (state w), has_blob (state w),
             mr_phase <$> recorders (host w) !! 0%nat, streams (host w) !! 0%nat))
    <$> run [ClickStart; ClickStart;
             GetUserMediaSettled Sample.microphone; GetUserMediaSettled Sample.microphone;
             DataAvailable 1 Sample.one_second; ClickStop; StopTask 1 Sample.no_data] init
  = Some (false, true, Some Recording, Some [true]).
Proof. vm_compute. reflexivity. Qed.

End AnswerCapture.

(** ** Answer Capture handing off to Interview Flow *)

Section HandOff.
Import Interview AudioRecorder.

Lemma hand_off_submitAnswer sd net t f rs s :
  exists s' post,
    hand_off (submitAnswer sd net) t f (rs, s) [] = (Ok tt, (cleared rs, s'), CallOnSubmit t f :: post)
    /\ Forall (sends_answer_text t) post.
Proof.
  rewrite hand_off_spec.
  destruct (submitAnswer_shape sd net t f s ([] ++ [CallOnSubmit t f])) as (s' & post & E & F).
  rewrite E. exists s', post. split; [reflexivity|exact F].
Qed.

(** C3. Every request [submitAnswer] issues is multipart and carries
    exactly one [answer_text] field, holding the text it was given; called
    from [handleSubmit], that text is the trimmed answer, so an answer
    made of audio only is sent with [answer_text] present and empty. *)
Theorem C3_answer_text_always_sent :
  (forall sd net txt file s,
     Forall (sends_answer_text txt) (submitAnswer sd net txt file s []).2)
  /\ (forall sd net ft rs s,
        Forall (sends_answer_text (trim (answerText rs)))
               (handleSubmit (submitAnswer sd net) ft (rs, s) []).2)
  /\ (handleSubmit (submitAnswer Sample.sessionData (Ok Sample.next)) None
        (mkState false (Some Sample.recording) "  " 0, mount Sample.sessionData) []).2
     = [CallOnSubmit "" (Some Sample.recording_file);
        Fetch "/api/interview/submit" "POST"
          (BForm [("session_id", FText "s-1"); ("question_id", FText "7");
                  ("answer_text", FText ""); ("audio_file", FFile Sample.recording_file)]);
        SetTimeout 3000 (VObj [("evaluation", Sample.evaluation);
                               ("next_question", Sample.question2)])].
Proof.
  split; [|split].
  - intros sd net txt file s.
    destruct (submitAnswer_shape sd net txt file s []) as (s' & post & E & F).
    now rewrite E.
  - intros sd net ft rs s. rewrite handleSubmit_unfold. cbv zeta.
    assert (H : forall f, Forall (sends_answer_text (trim (answerText rs)))
                            (hand_off (submitAnswer sd net) (trim (answerText rs)) f (rs, s) []).2).
    { intros f. destruct (hand_off_submitAnswer sd net (trim (answerText rs)) f rs s)
        as (s' & post & E & F).
      rewrite E. constructor; [exact I|exact F]. }
    destruct (negb _ && negb _); [repeat constructor|].
    destruct (audioBlob rs) as [b|]; [|apply H].
    destruct (0 <? blob_size b); [|apply H].
    destruct ft; [repeat constructor|apply H].
  - reflexivity.
Qed.

(** C1, on the code.  [submitAnswer] catches every failure itself and
    returns normally, so the [await onSubmit(...)] of [handleSubmit] never
    throws and the form is cleared after a failed submission too: here
    after the 400 response with body [{"detail": "bad audio format"}]. *)
Theorem C1_failed_submission_clears_form :
  (forall sd net txt file s l, (submitAnswer sd net txt file s l).1.1 = Ok tt)
  /\ let before := mkState false (Some Sample.recording) "hello" 0 in
     let out := handleSubmit (submitAnswer Sample.sessionData (Ok Sample.bad_audio)) None
                  (before, mount Sample.sessionData) [] in
     render out.1.2.2 = Errored (VStr "bad audio format")
     /\ out.1.2.1 = mkState false None "" 0.
Proof.
  split.
  - intros sd net txt file s l.
    destruct (submitAnswer_shape sd net txt file s l) as (s' & post & E & _). now rewrite E.
  - split; reflexivity.
Qed.

End HandOff.

(** ** Session Shell *)

Section SessionShell.
Import App.

(** C10. With a name whose trimmed form is empty, the start button is
    disabled, and [handleStart] only raises the warning: no request is
    issued, [onStart] is not called, and the states of the start form
    and of the shell (hence the view) are unchanged. *)
Theorem C10_empty_name_blocked onStart net (s : Setup) (a : State) l :
  is_empty (trim (App.name s)) = true ->
  start_button_disabled s = true
  /\ handleStart onStart net (s, a) l = (Ok tt, (s, a), l ++ [Alert "Please enter your name"]).
Proof.
  intros H. split.
  - unfold start_button_disabled. rewrite H. apply orb_true_r.
  - unfold handleStart, bind, gets. cbn [fst]. rewrite H. reflexivity.
Qed.

Lemma C10_empty_name_blocked_witness :
  start_button_disabled (mkSetup "   " "beginner" false) = true
  /\ handleStart startInterview (Ok Sample.next) (mkSetup "   " "beginner" false, mkState home VNull) []
     = (Ok tt, (mkSetup "   " "beginner" false, mkState home VNull), [Alert "Please enter your name"]).
Proof.
  exact (C10_empty_name_blocked startInterview (Ok Sample.next)
           (mkSetup "   " "beginner" false) (mkState home VNull) [] eq_refl).
Defined.

End SessionShell.

(** * Further properties of the code *)

(** ** Answer Capture: recording *)

Section Recording.
Import AudioRecorder.

Ltac act_run :=
  unfold startRecording, fire_dataavailable_and_stop, startRecording_call,
    startRecording_resume, start_failed, ondataavailable, onstop, onerror, stopRecording,
    clearRecording, or_throw, with_state, with_refs, with_host, update_recorder, stop_tracks,
    try_finally, try_catch, bind, ret, throw, lift, gets, modify, alert, perform in *.

Ltac proj_simpl :=
  cbn [state refs host disabled mounted streams recorders pending_getUserMedia intervals
       chunksRef mediaRecorderRef timerRef isRecording audioBlob answerText recordingTime
       set_isRecording set_audioBlob set_answerText set_recordingTime cleared fst snd] in *.

(** X1. The MIME type asked of the recorder is never one the host has
    declared unsupported: it is WebM/Opus when that is supported, else WAV
    when that is supported, else the empty string (the host's default). *)
Theorem mime_type_supported_or_default (supported : string -> bool) :
  let t := options_mimeType supported in
  (t = "" \/ supported t = true)
  /\ (supported "audio/webm;codecs=opus" = true -> t = "audio/webm;codecs=opus")
  /\ (supported "audio/webm;codecs=opus" = false -> supported "audio/wav" = true ->
      t = "audio/wav")
  /\ (supported "audio/webm;codecs=opus" = false -> supported "audio/wav" = false -> t = "").
Proof.
  unfold options_mimeType.
  destruct (supported "audio/webm;codecs=opus") eqn:E1; cbn.
  - repeat split; auto; discriminate.
  - destruct (supported "audio/wav") eqn:E2; cbn; repeat split; auto; discriminate.
Qed.

Lemma mime_type_supported_or_default_witness :
  options_mimeType Sample.wav_only = "audio/wav"
  /\ options_mimeType (fun _ => false) = "".
Proof.
  split.
  - exact (proj1 (proj2 (proj2 (mime_type_supported_or_default Sample.wav_only))) eq_refl eq_refl).
  - exact (proj2 (proj2 (proj2 (mime_type_supported_or_default (fun _ => false)))) eq_refl eq_refl).
Defined.

(** X2. When [getUserMedia] rejects, recording does not start: the
    component and the host are as before the click, and exactly one alert
    is raised, whose text is chosen by the name of the error
    ([NotAllowedError], [NotFoundError], anything else). *)
Theorem microphone_refused o e w l :
  getUserMedia o = Throw e ->
  exists msg,
    startRecording o w l = (Ok tt, w, l ++ [Alert msg])
    /\ In msg microphone_messages
    /\ (JS.name e = "NotAllowedError" ->
        msg = "Failed to access microphone. Please allow microphone access and try again.")
    /\ (JS.name e <> "NotAllowedError" -> JS.name e = "NotFoundError" ->
        msg = "Failed to access microphone. No microphone found. Please check your device.")
    /\ (JS.name e <> "NotAllowedError" -> JS.name e <> "NotFoundError" ->
        msg = "Failed to access microphone. Please check permissions and try again.").
Proof.
  intros He. destruct w as [d st rf [ss rs p iv] m]. act_run. proj_simpl. rewrite He.
  cbn [Nat.pred].
  destruct (String.eqb_spec (JS.name e) "NotAllowedError") as [E1|E1].
  - eexists. split; [reflexivity|]. cbn. repeat split; auto; intros; congruence.
  - destruct (String.eqb_spec (JS.name e) "NotFoundError") as [E2|E2].
    + eexists. split; [reflexivity|]. cbn. repeat split; auto; intros; congruence.
    + eexists. split; [reflexivity|]. cbn. repeat split; auto; intros; congruence.
Qed.

Lemma microphone_refused_witness :
  startRecording Sample.refusing init []
  = (Ok tt, init,
     [Alert "Failed to access microphone. Please allow microphone access and try again."]).
Proof.
  destruct (microphone_refused Sample.refusing _ init [] eq_refl) as (msg & E & _ & Hm & _).
  rewrite E, (Hm eq_refl). reflexivity.
Defined.

Lemma run_DataAvailable rid r datas : forall w,
  recorder_in Recording (host w) rid = Some r ->
  run (List.map (DataAvailable rid) datas) w
  = Some (with_chunks w (chunksRef (refs w) ++ kept datas)).
Proof.
  induction datas as [|data datas IH]; intros w Hr.
  - cbn. rewrite app_nil_r. now destruct w as [d st [a b c] h m].
  - cbn [List.map run]. unfold step, dispatch. rewrite Hr.
    unfold ondataavailable, kept. cbn [List.filter].
    destruct (0 <? blob_size data) eqn:E.
    + unfold with_refs, modify. rewrite IH by exact Hr.
      unfold with_chunks. proj_simpl. now rewrite <- app_assoc.
    + unfold ret. exact (IH w Hr).
Qed.

(** X3. While a recorder records, any run of [dataavailable] events
    appends to the collected chunks exactly the non-empty ones, in the
    order delivered, and changes nothing else. *)
Theorem chunks_kept_in_order rid r datas w :
  recorder_in Recording (host w) rid = Some r ->
  run (List.map (DataAvailable rid) datas) w
  = Some (with_chunks w (chunksRef (refs w) ++ kept datas)).
Proof.
  revert w. induction datas as [|data datas IH]; intros w Hr.
  - cbn. rewrite app_nil_r. now destruct w as [d st [a b c] h m].
  - cbn [List.map run]. unfold step, dispatch. rewrite Hr.
    unfold ondataavailable, kept. cbn [List.filter].
    destruct (0 <? blob_size data) eqn:E.
    + unfold with_refs, modify. rewrite IH by exact Hr.
      unfold with_chunks. proj_simpl. now rewrite <- app_assoc.
    + unfold ret. exact (IH w Hr).
Qed.

Lemma chunks_kept_in_order_witness :
  run [DataAvailable 0 Sample.one_second; DataAvailable 0 Sample.no_data;
       DataAvailable 0 Sample.one_second] Sample.recording_world
  = Some (with_chunks Sample.recording_world [Sample.one_second; Sample.one_second]).
Proof.
  exact (chunks_kept_in_order 0%nat _ [Sample.one_second; Sample.no_data; Sample.one_second]
           Sample.recording_world eq_refl).
Defined.

Lemma str_or_default_nonempty a : is_empty (str_or a "audio/wav") = false.
Proof. unfold str_or. destruct (is_empty a) eqn:E; auto. Qed.

Lemma fire_inv_display rid r data w l res w' l' :
  Inv_display w ->
  fire_dataavailable_and_stop rid r data w l = (res, w', l') ->
  Inv_display w'.
Proof.
  intros [Ht Hb] H. destruct w as [d st rf h m]. proj_simpl. act_run.
  destruct (0 <? blob_size data); cbn -[Nat.ltb] in H.
  - destruct (0 <? length (chunksRef rf ++ [data]))%nat; cbn -[Nat.ltb] in H;
      injection H as <- <- <-; destruct m; split; proj_simpl; auto;
      intros b [= <-]; apply str_or_default_nonempty.
  - destruct (0 <? length (chunksRef rf))%nat; cbn -[Nat.ltb] in H;
      injection H as <- <- <-; destruct m; split; proj_simpl; auto;
      intros b [= <-]; apply str_or_default_nonempty.
Qed.

Lemma step_inv_display e w w' l :
  step e w = Some (w', l) -> Inv_display w -> Inv_display w'.
Proof.
  unfold step, dispatch. intros H HI. pose proof HI as [Ht Hb].
  destruct w as [d st rf h m]. proj_simpl.
  destruct e.
  - destruct (_ && _); [|discriminate]. act_run. cbn in H. injection H as <- <-.
    destruct m; split; proj_simpl; auto.
  - destruct (_ <? _)%nat; [|discriminate]. act_run. cbn in H.
    destruct (getUserMedia o) as [n|ex]; cbn in H.
    + destruct (constructor_throws o); cbn in H.
      * injection H as <- <-. destruct m; split; proj_simpl; auto.
      * destruct (start_throws o); cbn in H; injection H as <- <-; destruct m; split; proj_simpl; auto.
    + injection H as <- <-. destruct m; split; proj_simpl; auto.
  - destruct (recorder_in _ _ _); [|discriminate]. act_run.
    destruct (0 <? blob_size data); cbn in H; injection H as <- <-; destruct m; split; proj_simpl; auto.
  - destruct (_ && _); [|discriminate]. act_run. cbn in H.
    destruct (mediaRecorderRef rf) as [rid|]; cbn in H.
    + destruct (negb _); cbn in H.
      * destruct (timerRef rf); cbn in H; injection H as <- <-; destruct m; split; proj_simpl; auto; lia.
      * injection H as <- <-. destruct m; split; proj_simpl; auto.
    + injection H as <- <-. destruct m; split; proj_simpl; auto.
  - destruct (recorder_in _ _ _) as [r|]; [|discriminate].
    destruct (fire_dataavailable_and_stop _ _ _ _ _) as [[res w1] l1] eqn:F.
    injection H as <- <-. exact (fire_inv_display _ _ _ _ _ _ _ _ HI F).
  - destruct (recorder_in _ _ _) as [r|]; [|discriminate].
    unfold bind at 1 2, with_host, modify, onerror, bind at 1, alert, perform, with_state, modify in H.
    cbn [app] in H. proj_simpl.
    destruct (fire_dataavailable_and_stop _ _ _ _ _) as [[res w1] l1] eqn:F.
    assert (w1 = w' /\ l1 = l) as [<- <-] by (destruct res; injection H; auto).
    eapply fire_inv_display; [|exact F]. destruct m; split; proj_simpl; auto.
  - destruct (recorder_in _ _ _) as [r|]; [|discriminate].
    unfold bind at 1 2, with_host, modify in H. proj_simpl.
    destruct (fire_dataavailable_and_stop _ _ _ _ _) as [[res w1] l1] eqn:F.
    assert (w1 = w' /\ l1 = l) as [<- <-] by (destruct res; injection H; auto).
    eapply fire_inv_display; [|exact F]. destruct m; split; proj_simpl; auto.
  - destruct (_ && _); [|discriminate]. act_run. cbn in H.
    injection H as <- <-. destruct m; split; proj_simpl; auto; discriminate.
  - destruct (_ && _); [|discriminate]. act_run. cbn in H.
    injection H as <- <-. destruct m; split; proj_simpl; auto.
  - destruct (_ && negb _); [|discriminate]. cbn beta in H. proj_simpl.
    destruct (handleSubmit_form onSubmit file_throws st tt []) as (r & p' & l' & [E|E]);
      rewrite E in H; injection H as <- <-; destruct m; split; proj_simpl; auto; discriminate.
  - destruct (intervals h !! timer) as [[|]|]; try discriminate. act_run. cbn in H.
    injection H as <- <-. destruct m; split; proj_simpl; auto; lia.
  - destruct m; [|discriminate]. act_run. cbn in H. injection H as <- <-.
    split; proj_simpl; auto.
  - destruct m; [|discriminate]. act_run. cbn in H. injection H as <- <-.
    split; proj_simpl; auto.
Qed.

Lemma reachable_inv_display w : reachable w -> Inv_display w.
Proof.
  induction 1 as [|e w w' l _ IH Hstep].
  - split; cbn; [lia|discriminate].
  - exact (step_inv_display _ _ _ _ Hstep IH).
Qed.

Lemma padStart_two_digits r :
  0 <= r < 60 -> padStart 2 "0" (string_of_Z r) = two_digits r.
Proof.
  intros Hr.
  assert (H : forallb (fun n => String.eqb (padStart 2 "0" (string_of_Z (Z.of_nat n)))
                                         (two_digits (Z.of_nat n))) (seq 0 60) = true)
    by (vm_compute; reflexivity).
  rewrite forallb_forall in H. specialize (H (Z.to_nat r)).
  rewrite Z2Nat.id in H by lia. apply String.eqb_eq, H, in_seq. lia.
Qed.

Lemma formatTime_nonneg seconds :
  0 <= seconds ->
  formatTime seconds = string_of_Z (seconds / 60) +:+ ":" +:+ two_digits (seconds mod 60).
Proof.
  intros H. unfold formatTime. cbv zeta.
  rewrite Z.rem_mod_nonneg by lia.
  rewrite padStart_two_digits; [reflexivity|]. apply Z.mod_pos_bound. lia.
Qed.

(** X4. [formatTime] of a non-negative number of seconds is the minutes
    in decimal, a colon, and the seconds of the minute on exactly two
    digits. *)
Theorem formatTime_two_digit_seconds seconds :
  0 <= seconds ->
  formatTime seconds = string_of_Z (seconds / 60) +:+ ":" +:+ two_digits (seconds mod 60).
Proof.
  intros H. unfold formatTime. cbv zeta.
  assert (Hrem : Z.rem seconds 60 = seconds mod 60) by (apply Z.rem_mod_nonneg; lia).
  assert (Hbound : 0 <= seconds mod 60 < 60) by (apply Z.mod_pos_bound; lia).
  rewrite Hrem, (padStart_two_digits _ Hbound). reflexivity.
Qed.

Lemma formatTime_two_digit_seconds_witness : formatTime 65 = "1:05" /\ formatTime 600 = "10:00".
Proof.
  split.
  - rewrite (formatTime_two_digit_seconds 65) by lia. reflexivity.
  - rewrite (formatTime_two_digit_seconds 600) by lia. reflexivity.
Defined.

(** X5. In every reachable state the recording time is not negative, so
    the timer shown while recording always reads minutes, colon, two
    digits. *)
Theorem timer_display_well_formed w :
  reachable w ->
  let t := recordingTime (state w) in
  0 <= t /\ formatTime t = string_of_Z (t / 60) +:+ ":" +:+ two_digits (t mod 60).
Proof.
  intros H. destruct (reachable_inv_display _ H) as [Ht _].
  split; [exact Ht|]. now apply formatTime_nonneg.
Qed.

Lemma timer_display_well_formed_witness :
  formatTime (recordingTime (state Sample.recording_world)) = "0:00".
Proof.
  rewrite (proj2 (timer_display_well_formed _ recording_world_reachable)). reflexivity.
Defined.

(** X6. In every reachable state, the file built from a held recording
    has the blob's type, which is not empty, the blob's size, which is
    positive, and is named [answer.webm] when the type mentions "webm"
    and [answer.wav] otherwise. *)
Theorem audio_file_of_recording w b :
  reachable w ->
  audioBlob (state w) = Some b ->
  audio_file b
  = mkFile (if includes (blob_type b) "webm" then "answer.webm" else "answer.wav")
           (blob_size b) (blob_type b)
  /\ 0 < file_size (audio_file b)
  /\ is_empty (file_type (audio_file b)) = false.
Proof.
  intros Hw Hb.
  destruct (reachable_inv_display _ Hw) as [_ Ht]. specialize (Ht _ Hb).
  destruct (reachable_inv _ Hw) as (_ & Hp & _). specialize (Hp _ Hb).
  unfold audio_file. rewrite (str_or_nonempty _ _ Ht). cbn [file_size file_type].
  split; [|split; auto]. now destruct (includes (blob_type b) "webm").
Qed.

Lemma recorded_world_reachable : reachable Sample.recorded_world.
Proof.
  apply (run_reachable [ClickStart; GetUserMediaSettled Sample.microphone;
                        DataAvailable 0 Sample.one_second; ClickStop;
                        StopTask 0 Sample.no_data] init);
    [constructor|vm_compute; reflexivity].
Qed.

Lemma audio_file_of_recording_witness :
  audio_file Sample.one_second = mkFile "answer.webm" 16000 "audio/webm;codecs=opus".
Proof.
  exact (proj1 (audio_file_of_recording Sample.recorded_world Sample.one_second
                  recorded_world_reachable eq_refl)).
Defined.

(** X7. When the task queued by [stop()] runs in a reachable state, the
    last chunk is kept if it is not empty and the recorder's tracks are
    stopped; then, with no chunk collected, the held audio is left as it
    was and the "no audio" warning is raised; with chunks, the audio
    becomes one blob whose size is the sum of theirs, which is positive,
    typed with the recorder's MIME type, or [audio/wav] if it reports
    none, and nothing is alerted.  (The blob is stored in the state of a
    mounted component; once unmounted, the setter does nothing and the
    state stays as it was.) *)
Theorem stop_task_outcome w rid data w' l :
  reachable w ->
  step (StopTask rid data) w = Some (w', l) ->
  let chunks := chunksRef (refs w) ++ kept [data] in
  exists r,
    recorders (host w) !! rid = Some r
    /\ chunksRef (refs w') = chunks
    /\ tracks_stopped (host w') (mr_stream r)
    /\ (chunks = [] -> audioBlob (state w') = audioBlob (state w) /\ l = [no_audio_warning])
    /\ (chunks <> [] ->
        audioBlob (state w')
        = (if mounted w
           then Some (mkBlob (fold_right Z.add 0 (List.map blob_size chunks))
                             (str_or (mr_mimeType r) "audio/wav"))
           else audioBlob (state w))
        /\ 0 < fold_right Z.add 0 (List.map blob_size chunks)
        /\ l = []).
Proof.
  intros Hw Hstep. cbv zeta.
  pose proof (reachable_inv _ (reachable_step _ _ _ _ Hw Hstep)) as Hi'.
  pose proof (reachable_inv _ Hw) as (Hc & _ & _).
  unfold step, dispatch in Hstep.
  destruct (recorder_in StopQueued (host w) rid) as [r|] eqn:Hr; [|discriminate].
  apply recorder_in_Some in Hr as [Hr Hp]. exists r. split; [exact Hr|].
  destruct (fire_stops rid r data w []) as (w1 & l1 & E & Hrec).
  rewrite E in Hstep. injection Hstep as <- <-.
  assert (Hts : tracks_stopped (host w1) (mr_stream r)).
  { change (mr_stream r) with (mr_stream (set_phase Stopped r)).
    apply (stopped_tracks_stopped w1 rid); [exact Hi'| |reflexivity].
    now rewrite Hrec, list_lookup_alter_eq, Hr. }
  clear Hrec Hi'. destruct w as [d st rf h m]. proj_simpl. act_run. unfold kept. cbn [List.filter].
  destruct (0 <? blob_size data) eqn:Hd; cbn -[Nat.ltb] in E.
  - destruct (0 <? length (chunksRef rf ++ [data]))%nat eqn:El; cbn -[Nat.ltb] in E;
      injection E as <- <-; proj_simpl.
    + split; [reflexivity|]. split; [exact Hts|]. split.
      * intros F. destruct (chunksRef rf); discriminate F.
      * intros _. split; [now destruct m|]. split; [|reflexivity].
        apply (new_Blob_positive _ ""); [|exact El].
        apply Forall_app; split; auto. constructor; [lia|constructor].
    + exfalso. rewrite length_app in El. cbn in El. destruct (length (chunksRef rf)); discriminate.
  - rewrite app_nil_r.
    destruct (0 <? length (chunksRef rf))%nat eqn:El; cbn -[Nat.ltb] in E;
      injection E as <- <-; proj_simpl.
    + split; [reflexivity|]. split; [exact Hts|]. split.
      * intros F. rewrite F in El. discriminate.
      * intros _. split; [now destruct m|]. split; [|reflexivity].
        now apply (new_Blob_positive _ "").
    + split; [reflexivity|]. split; [exact Hts|]. split.
      * intros _. split; [now destruct m|reflexivity].
      * intros F. destruct (chunksRef rf); [congruence|discriminate].
Qed.

Lemma stopping_world_reachable : reachable Sample.stopping_world.
Proof.
  apply (run_reachable [ClickStart; GetUserMediaSettled Sample.microphone; ClickStop] init);
    [constructor|vm_compute; reflexivity].
Qed.

Lemma stop_task_outcome_witness :
  exists w',
    step (StopTask 0 Sample.no_data) Sample.stopping_world = Some (w', [no_audio_warning])
    /\ audioBlob (state w') = None.
Proof.
  destruct (step (StopTask 0 Sample.no_data) Sample.stopping_world) as [[w' l]|] eqn:E;
    [|vm_compute in E; discriminate E].
  destruct (stop_task_outcome Sample.stopping_world 0%nat Sample.no_data w' l
              stopping_world_reachable E) as (r & _ & _ & _ & H0 & _).
  destruct (H0 eq_refl) as [Hb ->]. exists w'. split; [reflexivity|exact Hb].
Defined.

Lemma run_app es1 es2 : forall w,
  run (es1 ++ es2) w = match run es1 w with Some w1 => run es2 w1 | None => None end.
Proof.
  induction es1 as [|e es1 IH]; intros w; cbn; [reflexivity|].
  destruct (step e w) as [[w1 l1]|]; [apply IH|reflexivity].
Qed.

Lemma map_kill_repeat n : List.map (fun _ : bool => false) (repeat true n) = repeat false n.
Proof. induction n; cbn; congruence. Qed.

Lemma kept_app a b : kept (a ++ b) = kept a ++ kept b.
Proof. unfold kept. apply List.filter_app. Qed.

Lemma run_start o n :
  getUserMedia o = Ok n -> constructor_throws o = None -> start_throws o = None ->
  run [ClickStart; GetUserMediaSettled o] init = Some (started o n).
Proof.
  intros H1 H2 H3. cbn [run]. unfold step, dispatch. cbn [init state disabled host].
  cbn [start_button_rendered isRecording has_blob audioBlob negb andb].
  unfold startRecording_call, with_host, modify. proj_simpl. cbn [Nat.ltb Nat.leb].
  act_run. proj_simpl. rewrite H1. cbn. rewrite H2. cbn. rewrite H3. cbn. reflexivity.
Qed.

Lemma run_beats o n beats : forall t chunks,
  run (List.map beat_event beats) (recording_for o n t chunks)
  = Some (recording_for o n (t + seconds_of beats) (chunks ++ kept (chunks_of beats))).
Proof.
  induction beats as [|[data|] beats IH]; intros t chunks.
  - cbn. now rewrite Z.add_0_r, app_nil_r.
  - cbn [List.map beat_event run]. unfold step, dispatch, recording_for at 1 2.
    cbn [host recorders recorder_in lookup list_lookup mr_phase].
    unfold ondataavailable.
    change (chunks_of (Chunk data :: beats)) with ([data] ++ chunks_of beats).
    rewrite kept_app. unfold kept at 1. cbn [List.filter].
    change (seconds_of (Chunk data :: beats)) with (seconds_of beats).
    destruct (0 <? blob_size data).
    + unfold with_refs, modify. proj_simpl.
      change (mkWorld _ _ _ _ _) with (recording_for o n t (chunks ++ [data])).
      rewrite IH. now rewrite <- app_assoc.
    + unfold ret. cbn [app]. apply IH.
  - cbn [List.map beat_event run]. unfold step, dispatch, recording_for at 1 2.
    cbn [host intervals lookup list_lookup]. unfold with_state, modify. proj_simpl.
    change (mkWorld _ _ _ _ _) with (recording_for o n (t + 1) chunks).
    rewrite IH. f_equal. f_equal.
    unfold seconds_of. cbn [List.filter length]. lia.
Qed.

(** X8. One whole recording from a fresh component on a host that grants
    the microphone.  After the start and any chunks and timer periods,
    the component is recording, its timer shows the number of periods
    elapsed and the non-empty chunks are collected in order.  After stop
    and the queued stop task, it is not recording, its timer is back at
    zero and cancelled, the stream's tracks are all stopped, and it holds
    the blob made of the non-empty chunks (the last one included), or no
    blob if there are none. *)
Theorem recording_session o n beats final :
  getUserMedia o = Ok n -> constructor_throws o = None -> start_throws o = None ->
  let start := [ClickStart; GetUserMediaSettled o] ++ List.map beat_event beats in
  let chunks := kept (chunks_of beats ++ [final]) in
  run start init = Some (recording_for o n (seconds_of beats) (kept (chunks_of beats)))
  /\ run (start ++ [ClickStop; StopTask 0%nat final]) init
     = Some (mkWorld false
               (mkState false
                  (match chunks with
                   | [] => None
                   | _ => Some (new_Blob chunks (str_or (reported_mimeType o) "audio/wav"))
                   end) "" 0)
               (mkRefs (Some 0%nat) chunks (Some 0%nat))
               (mkHost [repeat false n]
                  [mkRecorder 0 Stopped (options_mimeType (isTypeSupported o)) (reported_mimeType o)]
                  0 [false])
               true).
Proof.
  intros H1 H2 H3 start chunks. subst start chunks.
  assert (Hs : run ([ClickStart; GetUserMediaSettled o] ++ List.map beat_event beats) init
               = Some (recording_for o n (seconds_of beats) (kept (chunks_of beats)))).
  { rewrite run_app, (run_start o n H1 H2 H3).
    change (started o n) with (recording_for o n 0 []). now rewrite run_beats. }
  split; [exact Hs|].
  rewrite run_app, Hs, kept_app. unfold recording_for.
  generalize (kept (chunks_of beats)) (seconds_of beats). intros ks t.
  cbn [run]. unfold step at 1, dispatch. proj_simpl. cbn [stop_button_rendered isRecording andb].
  unfold stopRecording, bind, gets, with_host, with_state, modify, update_recorder. proj_simpl.
  cbn. unfold step, dispatch. cbn. act_run. unfold kept. cbn [List.filter].
  destruct (0 <? blob_size final) eqn:Hf; cbn -[Nat.ltb length].
  - destruct (ks ++ [final]) as [|c cs] eqn:E.
    { destruct ks; discriminate E. }
    cbn. rewrite map_kill_repeat. reflexivity.
  - rewrite app_nil_r. destruct ks as [|c cs]; cbn; rewrite map_kill_repeat; reflexivity.
Qed.

Lemma recording_session_witness :
  run [ClickStart; GetUserMediaSettled Sample.microphone;
       DataAvailable 0 Sample.one_second; Tick 0; DataAvailable 0 Sample.no_data; Tick 0] init
  = Some (recording_for Sample.microphone 1 2 [Sample.one_second])
  /\ run [ClickStart; GetUserMediaSettled Sample.microphone;
          DataAvailable 0 Sample.one_second; Tick 0; DataAvailable 0 Sample.no_data; Tick 0;
          ClickStop; StopTask 0 Sample.one_second] init
     = Some (mkWorld false
               (mkState false (Some (mkBlob 32000 "audio/webm;codecs=opus")) "" 0)
               (mkRefs (Some 0%nat) [Sample.one_second; Sample.one_second] (Some 0%nat))
               (mkHost [[false]]
                  [mkRecorder 0 Stopped "audio/webm;codecs=opus" "audio/webm;codecs=opus"]
                  0 [false])
               true).
Proof.
  exact (recording_session Sample.microphone 1
           [Chunk Sample.one_second; Second; Chunk Sample.no_data; Second]
           Sample.one_second eq_refl eq_refl eq_refl).
Defined.

End Recording.

(** ** Interview Flow: failures, retry, progress *)

Section InterviewProgress.
Import Interview.

Lemma submitAnswer_state_cases sd net txt file s l :
  truthy (currentQuestion s) = true ->
  exists s1 l1,
    submitAnswer sd net txt file s l = (Ok tt, s1, l1)
    /\ ((exists msg, s1 = failed s msg)
        \/ (exists resp result ev,
              net = Ok resp /\ ok resp = true /\ json resp = Ok result
              /\ get_prop result "evaluation" = Ok ev /\ truthy ev = true /\ s1 = shown s ev)).
Proof.
  intros Hq.
  destruct (get_prop sd "session_id") as [sid|e] eqn:Hs.
  2:{ rewrite (submitAnswer_no_session _ _ _ _ _ _ _ Hq Hs). eauto 8. }
  destruct net as [resp|e].
  2:{ destruct (submitAnswer_network_error sd txt file s l sid e Hq Hs) as (qid & _ & E).
      cbv zeta in E. rewrite E. eauto 8. }
  destruct (ok resp) eqn:Hok.
  - destruct (json resp) as [result|e] eqn:Hj.
    + destruct (submitAnswer_2xx sd resp result txt file s l sid Hq Hs Hok Hj) as (qid & _ & E).
      cbv zeta in E. rewrite E. clear E.
      destruct (get_prop result "evaluation") as [ev|e] eqn:Hev; [|eauto 8].
      destruct (truthy ev) eqn:Ht; [|eauto 8].
      do 2 eexists. split; [reflexivity|]. right. exists resp, result, ev. auto 8.
    + destruct (submitAnswer_2xx_unparseable sd resp txt file s l sid e Hq Hs Hok Hj)
        as (qid & _ & E).
      cbv zeta in E. rewrite E. eauto 8.
  - destruct (submitAnswer_not_ok sd resp txt file s l sid Hq Hs Hok) as (qid & _ & E).
    cbv zeta in E. rewrite E. clear E.
    destruct (error_message resp) as [m|e]; eauto 8.
Qed.

(** X9. Whatever the backend answers, [submitAnswer] leaves the current
    question and the question counter as they were, and it never leaves
    the spinner on: [loading] is false when it returns. *)
Theorem submitAnswer_frame sd net txt file s l :
  let s1 := (submitAnswer sd net txt file s l).1.2 in
  currentQuestion s1 = currentQuestion s
  /\ questionNumber s1 = questionNumber s
  /\ (loading s = false -> loading s1 = false)
  /\ (truthy (currentQuestion s) = true -> loading s1 = false).
Proof.
  cbv zeta. destruct (truthy (currentQuestion s)) eqn:Hq.
  - destruct (submitAnswer_state_cases sd net txt file s l Hq) as (s1 & l1 & E & H).
    rewrite E. cbn [fst snd].
    destruct H as [[msg ->]|(resp & result & ev & _ & _ & _ & _ & _ & ->)]; cbn; auto.
  - rewrite submitAnswer_no_question by exact Hq. cbn. repeat split; auto. discriminate.
Qed.

Lemma submitAnswer_frame_witness :
  loading (submitAnswer Sample.sessionData (Throw Sample.failed_to_fetch) "x" None
             (mount Sample.sessionData) []).1.2 = false.
Proof.
  exact (proj2 (proj2 (proj2 (submitAnswer_frame Sample.sessionData (Throw Sample.failed_to_fetch)
                                "x" None (mount Sample.sessionData) []))) eq_refl).
Defined.

(** X10. When the request itself fails, the Errored view shows the
    error's message, or "Network error occurred" if it has none, and the
    generic alert is raised once, unless the message contains
    "Server error", in which case nothing is alerted. *)
Theorem network_failure sd e txt file s sid :
  truthy (currentQuestion s) = true ->
  get_prop sd "session_id" = Ok sid ->
  let out := submitAnswer sd (Throw e) txt file s [] in
  render out.1.2 = Errored (VStr (str_or (message e) "Network error occurred"))
  /\ alerts out.2
     = (if includes (message e) "Server error" then []
        else ["Failed to submit answer. Please check your connection and try again."]).
Proof.
  intros Hq Hs. cbv zeta.
  destruct (submitAnswer_network_error sd txt file s [] sid e Hq Hs) as (qid & _ & E).
  cbv zeta in E. rewrite E. cbn [fst snd]. split.
  - unfold render, failed. cbn [loading error]. rewrite truthy_VStr.
    unfold str_or. destruct (is_empty (message e)) eqn:Em; cbn; [reflexivity|].
    now rewrite Em.
  - destruct (includes (message e) "Server error"); reflexivity.
Qed.

Lemma network_failure_witness :
  let out := submitAnswer Sample.sessionData (Throw Sample.failed_to_fetch) "x" None
               (mount Sample.sessionData) [] in
  render out.1.2 = Errored (VStr "Failed to fetch")
  /\ alerts out.2 = ["Failed to submit answer. Please check your connection and try again."].
Proof.
  exact (network_failure Sample.sessionData Sample.failed_to_fetch "x" None
           (mount Sample.sessionData) (VStr "s-1") eq_refl eq_refl).
Defined.

Lemma render_Active s :
  render s = Active ->
  loading s = false /\ truthy (error s) = false /\ showFeedback s && truthy (feedback s) = false.
Proof.
  unfold render. destruct (loading s); [discriminate|].
  destruct (truthy (error s)); [discriminate|].
  destruct (showFeedback s && truthy (feedback s)); [discriminate|auto].
Qed.

Lemma render_failed_any s msg :
  render (failed s msg) = Errored (VStr (str_or msg "Network error occurred")).
Proof.
  unfold render, failed. cbn [loading error]. rewrite truthy_VStr.
  unfold str_or. destruct (is_empty msg) eqn:E; cbn; [reflexivity|now rewrite E].
Qed.



(** X20. A non-2xx response whose body is not JSON, or is the JSON
    [null].  [response.json()] has consumed the body, so the
    [response.text()] of the [catch] block rejects, and what reaches the
    user is that rejection: the Errored view shows the platform's
    complaint about a body read twice ("Network error occurred" if it has
    no message), not "Server error (status): body"; the alert of the
    non-2xx block is not raised, and the generic alert is, unless the
    platform's complaint happens to contain "Server error". *)
Theorem unparseable_error_body sd resp txt file s sid :
  truthy (currentQuestion s) = true ->
  get_prop sd "session_id" = Ok sid ->
  ok resp = false ->
  (exists e, json resp = Throw e) \/ json resp = Ok VNull ->
  let out := submitAnswer sd (Ok resp) txt file s [] in
  let complaint := message (body_used resp) in
  error_message resp = Throw (body_used resp)
  /\ render out.1.2 = Errored (VStr (str_or complaint "Network error occurred"))
  /\ alerts out.2
     = (if includes complaint "Server error" then []
        else ["Failed to submit answer. Please check your connection and try again."]).
Proof.
  intros Hq Hs Hok Hj. cbv zeta.
  assert (Hm : error_message resp = Throw (body_used resp)).
  { unfold error_message, text. destruct Hj as [[e ->]| ->]; reflexivity. }
  destruct (submitAnswer_not_ok sd resp txt file s [] sid Hq Hs Hok) as (qid & _ & E).
  cbv zeta in E. rewrite E, Hm. clear E. cbn [fst snd].
  split; [reflexivity|]. split; [apply render_failed_any|].
  destruct (includes _ "Server error"); reflexivity.
Qed.

Lemma unparseable_error_body_witness :
  let out := submitAnswer Sample.sessionData (Ok Sample.bad_gateway) "x" None
               (mount Sample.sessionData) [] in
  render out.1.2 = Errored (VStr "body stream already read")
  /\ alerts out.2 = ["Failed to submit answer. Please check your connection and try again."].
Proof.
  exact (proj2 (unparseable_error_body Sample.sessionData Sample.bad_gateway "x" None
                  (mount Sample.sessionData) (VStr "s-1") eq_refl eq_refl eq_refl
                  (or_introl (ex_intro _ Sample.syntax_error eq_refl)))).
Defined.

(** X11. "Try Again" after a failed submission made from the Active view
    brings back the Active view, with the same question and the same
    counter. *)
Theorem retry_after_failed_submission sd net txt file s m :
  render s = Active ->
  truthy (currentQuestion s) = true ->
  let s1 := (submitAnswer sd net txt file s []).1.2 in
  render s1 = Errored m ->
  let s2 := (retry s1 []).1.2 in
  render s2 = Active
  /\ currentQuestion s2 = currentQuestion s
  /\ questionNumber s2 = questionNumber s.
Proof.
  intros Ha Hq s1 He s2. subst s2 s1.
  destruct (render_Active _ Ha) as (Hl & Herr & Hf).
  destruct (submitAnswer_state_cases sd net txt file s [] Hq) as (s1 & l1 & E & H).
  rewrite E in *. cbn [fst snd] in *.
  destruct H as [[msg ->]|(resp & result & ev & _ & _ & _ & _ & Ht & ->)].
  - unfold retry, setError, modify, failed, render. cbn. rewrite Hf. auto.
  - exfalso. unfold render, shown in He. cbn in He. rewrite Ht in He. discriminate.
Qed.

Lemma retry_after_failed_submission_witness :
  let s1 := (submitAnswer Sample.sessionData (Ok Sample.bad_audio) "x" None
               (mount Sample.sessionData) []).1.2 in
  render (retry s1 []).1.2 = Active.
Proof.
  exact (proj1 (retry_after_failed_submission Sample.sessionData (Ok Sample.bad_audio) "x" None
                  (mount Sample.sessionData) (VStr "bad audio format")
                  eq_refl eq_refl eq_refl)).
Defined.

(** X12. After a successful response that neither completes the
    interview nor names a next question, the timer puts the flow in the
    Errored view; "Try Again" then shows the feedback view of that same
    evaluation again, not the question: the feedback had not been
    cleared. *)
Theorem retry_after_unexpected_response sd resp result txt file s sid ev :
  truthy (currentQuestion s) = true ->
  get_prop sd "session_id" = Ok sid ->
  ok resp = true ->
  json resp = Ok result ->
  get_prop result "evaluation" = Ok ev -> truthy ev = true ->
  (forall ic, get_prop result "interview_complete" = Ok ic -> truthy ic = false) ->
  (forall nq, get_prop result "next_question" = Ok nq -> truthy nq = false) ->
  let s1 := (submitAnswer sd (Ok resp) txt file s []).1.2 in
  let s2 := (after_dwell result s1 []).1.2 in
  let s3 := (retry s2 []).1.2 in
  render s2 = Errored (VStr "Unexpected response from server")
  /\ render s3 = FeedbackShown ev
  /\ currentQuestion s3 = currentQuestion s
  /\ questionNumber s3 = questionNumber s.
Proof.
  intros Hq Hs Hok Hj Hev Hevt Hic Hnq s1 s2 s3.
  destruct (submitAnswer_2xx sd resp result txt file s [] sid Hq Hs Hok Hj) as (qid & _ & E).
  cbv zeta in E. rewrite Hev, Hevt in E. subst s3 s2 s1. rewrite E. clear E. cbn [fst snd].
  destruct result as [| | | | | |fields]; cbn [get_prop] in Hev; try discriminate Hev;
    try (injection Hev as <-; discriminate Hevt).
  specialize (Hic _ eq_refl). specialize (Hnq _ eq_refl).
  unfold after_dwell, retry, bind, lift, perform, setCurrentQuestion, setQuestionNumber,
    setFeedback, setShowFeedback, setError, modify. cbn [get_prop].
  rewrite Hic. cbn. rewrite Hnq. cbn. unfold render. cbn. rewrite Hevt. auto.
Qed.

Lemma retry_after_unexpected_response_witness :
  let s1 := (submitAnswer Sample.sessionData (Ok Sample.bare) "x" None
               (mount Sample.sessionData) []).1.2 in
  let s2 := (after_dwell (VObj [("evaluation", Sample.evaluation)]) s1 []).1.2 in
  render (retry s2 []).1.2 = FeedbackShown Sample.evaluation.
Proof.
  refine (proj1 (proj2 (retry_after_unexpected_response Sample.sessionData Sample.bare
                          (VObj [("evaluation", Sample.evaluation)]) "x" None
                          (mount Sample.sessionData) (VStr "s-1") Sample.evaluation
                          eq_refl eq_refl eq_refl eq_refl eq_refl eq_refl _ _)));
    intros v [= <-]; reflexivity.
Defined.

Lemma after_dwell_advances result s l :
  advances result ->
  exists nq,
    get_prop result "next_question" = Ok nq
    /\ after_dwell result s l
       = (Ok tt, mkState nq (questionNumber s + 1) (loading s) VNull false (error s), l).
Proof.
  intros (fields & -> & Hic & Hnq). eexists. split; [reflexivity|].
  unfold after_dwell, bind, lift, perform, setCurrentQuestion, setQuestionNumber,
    setFeedback, setShowFeedback, setError, modify. cbn [get_prop].
  rewrite Hic. cbn. rewrite Hnq. reflexivity.
Qed.


(** X13. The question counter is not capped at the ten questions the
    page announces: after any number of responses that each name a next
    question it has grown by that number, as long as it stays a safe
    integer, and nothing was logged: completion has not been signalled. *)
Theorem question_counter_not_capped results : forall s l,
  Forall advances results ->
  safe_integer (questionNumber s) = true ->
  safe_integer (questionNumber s + Z.of_nat (length results)) = true ->
  let out := after_dwells results s l in
  out.1.1 = Ok tt
  /\ questionNumber out.1.2 = questionNumber s + Z.of_nat (length results)
  /\ safe_integer (questionNumber out.1.2) = true
  /\ out.2 = l.
Proof.
  assert (Hs : forall n k : Z, 0 <= k -> safe_integer n = true -> safe_integer (n + k + 1) = true ->
                               safe_integer (n + 1) = true).
  { unfold safe_integer, MAX_SAFE_INTEGER. intros n k Hk H1 H2.
    apply andb_true_iff in H1 as [A1 B1]. apply andb_true_iff in H2 as [A2 B2].
    apply andb_true_iff. split; lia. }
  induction results as [|result rest IH]; intros s l H Hlo Hhi; cbv zeta.
  - cbn. rewrite Z.add_0_r in Hhi. repeat split; auto. lia.
  - inversion H as [|? ? Hr Hrest]; subst.
    destruct (after_dwell_advances result s l Hr) as (nq & _ & E).
    cbn [after_dwells]. unfold bind. rewrite E.
    assert (Hlen : questionNumber s + 1 + Z.of_nat (length rest)
                   = questionNumber s + Z.of_nat (length (result :: rest)))
      by (cbn [length]; lia).
    assert (A : safe_integer (questionNumber s + 1) = true).
    { apply (Hs _ (Z.of_nat (length rest))); [lia|exact Hlo|].
      replace (questionNumber s + Z.of_nat (length rest) + 1)
        with (questionNumber s + Z.of_nat (length (result :: rest))) by (cbn [length]; lia).
      exact Hhi. }
    assert (B : safe_integer (questionNumber s + 1 + Z.of_nat (length rest)) = true)
      by now rewrite Hlen.
    destruct (IH (mkState nq (questionNumber s + 1) (loading s) VNull false (error s)) l
                Hrest A B) as (H1 & H2 & H3 & H4).
    cbn [questionNumber] in H2. rewrite H2 in H3. rewrite Hlen in H2, H3.
    split; [exact H1|]. split; [exact H2|]. split; [|exact H4]. now rewrite H2.
Qed.

Lemma question_counter_not_capped_witness :
  questionNumber (after_dwells (repeat Sample.next_body 11)
                    (mount Sample.sessionData) []).1.2 = 12.
Proof.
  refine (proj1 (proj2 (question_counter_not_capped (repeat Sample.next_body 11)
                          (mount Sample.sessionData) [] _ eq_refl eq_refl))).
  repeat constructor; eexists; repeat split; reflexivity.
Defined.

Lemma count_below qn n : forall k,
  length (List.filter (fun i => Z.of_nat i <? qn) (seq k n))
  = Z.to_nat (Z.max 0 (Z.min (Z.of_nat n) (qn - Z.of_nat k))).
Proof.
  induction n as [|n IH]; intros k; cbn [seq List.filter].
  - cbn. lia.
  - destruct (Z.ltb_spec (Z.of_nat k) qn); cbn [length]; rewrite IH; lia.
Qed.

(** X14. The feedback view always draws ten progress dots, of which
    min(10, questionNumber) are completed (none for a counter below one,
    that is for zero and negative numbers):
    past the tenth question the dots no longer change. *)
Theorem progress_dots_saturate questionNumber :
  length (progress_dots questionNumber) = 10%nat
  /\ length (List.filter (fun completed => completed) (progress_dots questionNumber))
     = Z.to_nat (Z.max 0 (Z.min 10 questionNumber)).
Proof.
  unfold progress_dots. split; [reflexivity|].
  assert (H : forall (f : nat -> bool) l,
             length (List.filter (fun c : bool => c) (List.map f l)) = length (List.filter f l)).
  { intros f l. induction l as [|x l IH]; cbn; [reflexivity|]. destruct (f x); cbn; congruence. }
  rewrite H, count_below. f_equal. lia.
Qed.

End InterviewProgress.

(** ** Submitting without a question *)

Section NoQuestion.
Import Interview AudioRecorder.

(** X15. When Interview Flow holds no current question, an answer that
    Answer Capture accepts is handed to [submitAnswer], which only
    alerts: no request is issued and the flow's state is unchanged; since
    the call returns, the form is cleared. *)
Theorem submission_without_question sd net rs s :
  truthy (currentQuestion s) = false ->
  is_empty (trim (answerText rs)) = false ->
  audioBlob rs = None ->
  handleSubmit (submitAnswer sd net) None (rs, s) []
  = (Ok tt, (cleared rs, s),
     [CallOnSubmit (trim (answerText rs)) None; Alert "No question available to answer"]).
Proof.
  intros Hq Ht Hb.
  rewrite handleSubmit_accepted; [|rewrite Hb; discriminate|now left].
  rewrite Hb, hand_off_spec. cbn [fmap option_fmap option_map].
  now rewrite submitAnswer_no_question by exact Hq.
Qed.

Lemma submission_without_question_witness :
  handleSubmit (submitAnswer Sample.sessionData_without_question (Ok Sample.next)) None
    (mkState false None "=SUM(A1:A5)" 0, mount Sample.sessionData_without_question) []
  = (Ok tt, (mkState false None "" 0, mount Sample.sessionData_without_question),
     [CallOnSubmit "=SUM(A1:A5)" None; Alert "No question available to answer"]).
Proof.
  exact (submission_without_question Sample.sessionData_without_question (Ok Sample.next)
           (mkState false None "=SUM(A1:A5)" 0) (mount Sample.sessionData_without_question)
           eq_refl eq_refl eq_refl).
Defined.

End NoQuestion.

(** ** Session Shell: starting, and the report *)

Section Starting.
Import App.

Lemma handleStart_run net (s : Setup) (a : State) l :
  is_empty (trim (App.name s)) = false ->
  handleStart startInterview net (s, a) l
  = match payload net with
    | Some data =>
        (Ok tt, (mkSetup (App.name s) (experience s) false, mkState interview data),
         l ++ [start_request s; CallOnStart data])
    | None =>
        (Ok tt, (mkSetup (App.name s) (experience s) false, a),
         l ++ [start_request s; start_failed_alert])
    end.
Proof.
  intros Hn. unfold handleStart, payload, start_request, start_failed_alert.
  unfold try_finally, try_catch, bind, gets, in_child, in_parent, setLoading, startInterview,
    modify, alert, perform, lift, throw, ret.
  cbn [fst snd]. rewrite Hn. cbn [fst snd App.name experience].
  destruct net as [resp|e]; cbn [fst snd].
  - destruct (ok resp); cbn [negb fst snd].
    + destruct (json resp) as [data|e]; cbn [fst snd App.name experience];
        rewrite <- app_assoc; reflexivity.
    + rewrite <- app_assoc. reflexivity.
  - rewrite <- app_assoc. reflexivity.
Qed.

(** X16. With a name that is not blank, [handleStart] issues exactly one
    request, carrying the name as typed and the experience, and always
    ends with [loading] false.  A 2xx response with a parseable body is
    passed to [onStart], and the shell shows the interview with that
    session; any other outcome raises the one "failed to start" alert and
    leaves the shell as it was. *)
Theorem handleStart_outcome net (s : Setup) (a : State) l :
  is_empty (trim (App.name s)) = false ->
  handleStart startInterview net (s, a) l
  = match payload net with
    | Some data =>
        (Ok tt, (mkSetup (App.name s) (experience s) false, mkState interview data),
         l ++ [start_request s; CallOnStart data])
    | None =>
        (Ok tt, (mkSetup (App.name s) (experience s) false, a),
         l ++ [start_request s; start_failed_alert])
    end.
Proof.
  intros Hn. unfold handleStart, payload, start_request, start_failed_alert.
  unfold try_finally, try_catch, bind, gets, in_child, in_parent, setLoading, startInterview,
    modify, alert, perform, lift, throw, ret.
  cbn [fst snd]. rewrite Hn. cbn [fst snd App.name experience].
  destruct net as [resp|e]; cbn [fst snd].
  - destruct (ok resp); cbn [negb fst snd].
    + destruct (json resp) as [data|e]; cbn [fst snd App.name experience];
        rewrite <- app_assoc; reflexivity.
    + rewrite <- app_assoc. reflexivity.
  - rewrite <- app_assoc. reflexivity.
Qed.

Lemma handleStart_outcome_witness :
  handleStart startInterview (Ok (mkResponse 200 (Ok Sample.sessionData) Sample.body_used))
    (mkSetup "Ada" "beginner" false, mkState home VNull) []
  = (Ok tt, (mkSetup "Ada" "beginner" false, mkState interview Sample.sessionData),
     [start_request (mkSetup "Ada" "beginner" false); CallOnStart Sample.sessionData])
  /\ handleStart startInterview (Throw Sample.failed_to_fetch)
       (mkSetup "Ada" "beginner" false, mkState home VNull) []
     = (Ok tt, (mkSetup "Ada" "beginner" false, mkState home VNull),
        [start_request (mkSetup "Ada" "beginner" false); start_failed_alert]).
Proof.
  split.
  - exact (handleStart_outcome (Ok (mkResponse 200 (Ok Sample.sessionData) Sample.body_used))
             (mkSetup "Ada" "beginner" false) (mkState home VNull) [] eq_refl).
  - exact (handleStart_outcome (Throw Sample.failed_to_fetch)
             (mkSetup "Ada" "beginner" false) (mkState home VNull) [] eq_refl).
Defined.

(** X17. Once a session has started, the Interview mounted on its
    payload is in the Active view at question number 1; its current
    question is the payload's [question] when that is truthy, and there
    is none otherwise. *)
Theorem interview_starts_at_question_one net (s : Setup) (a : State) fields :
  is_empty (trim (App.name s)) = false ->
  payload net = Some (VObj fields) ->
  let a' := (handleStart startInterview net (s, a) []).1.2.2 in
  let i := Interview.mount (sessionData a') in
  currentView a' = interview
  /\ Interview.render i = Interview.Active
  /\ Interview.questionNumber i = 1
  /\ Interview.currentQuestion i
     = (if truthy (lookup_field "question" fields) then lookup_field "question" fields
        else VNull).
Proof.
  intros Hn Hp. cbv zeta. rewrite (handleStart_run net s a [] Hn), Hp.
  cbn [fst snd currentView sessionData]. unfold Interview.mount. cbn [truthy andb].
  repeat split.
Qed.

Lemma interview_starts_at_question_one_witness :
  let a' := (handleStart startInterview
               (Ok (mkResponse 200 (Ok Sample.sessionData) Sample.body_used))
               (mkSetup "Ada" "beginner" false, mkState home VNull) []).1.2.2 in
  Interview.questionNumber (Interview.mount (sessionData a')) = 1
  /\ Interview.currentQuestion (Interview.mount (sessionData a')) = Sample.question1.
Proof.
  destruct (interview_starts_at_question_one
              (Ok (mkResponse 200 (Ok Sample.sessionData) Sample.body_used))
              (mkSetup "Ada" "beginner" false) (mkState home VNull) _ eq_refl eq_refl)
    as (_ & _ & Hn & Hq).
  split; [exact Hn|exact Hq].
Defined.

End Starting.

Section Report.
Import InterviewReport.




End Report.
